(** * API-key authentication middleware: a shallow embedding of [plugin.go]

    The development follows the Go file top to bottom.  Go strings are byte
    sequences and are modelled by [string] (one [ascii] per byte); Go maps
    ([http.Header], [url.Values]) are modelled by [gmap]; the pieces of the Go
    standard library the plugin calls are modelled in the modules [GoStrings],
    [Regexp], [NetHTTP], [NetURL] and [JSON]. *)

From Stdlib Require Import ZArith Ascii String List Bool Lia.
From Stdlib Require Import Numbers.DecimalString.
From stdpp Require Import base option list strings gmap fin_maps sorting.

Local Open Scope string_scope.
Local Open Scope list_scope.

(** ** Package [strings] *)

Module GoStrings.

(** [strings.HasPrefix s prefix] *)
Fixpoint HasPrefix (s prefix : string) {struct prefix} : bool :=
  match prefix, s with
  | EmptyString, _ => true
  | String p prefix', String c s' => Ascii.eqb c p && HasPrefix s' prefix'
  | String _ _, EmptyString => false
  end.

(** [strings.Contains s substr]: [substr] occurs in [s] at some offset.
    The empty string occurs in every string. *)
Fixpoint Contains (s substr : string) : bool :=
  HasPrefix s substr ||
  match s with
  | EmptyString => false
  | String _ s' => Contains s' substr
  end.

(** [strings.TrimPrefix]-like helper that also reports whether the prefix
    was there: what remains of [s] after [prefix]. *)
Fixpoint CutPrefix (s prefix : string) {struct prefix}
  : option string :=
  match prefix, s with
  | EmptyString, _ => Some s
  | String p prefix', String c s' =>
      if Ascii.eqb c p then CutPrefix s' prefix' else None
  | String _ _, EmptyString => None
  end.

End GoStrings.

(** ** Package [regexp]

    The fragment of the RE2 syntax that the plugin's pattern is written in:
    literal text, a class matching one byte, a greedy one-or-more repetition
    of a class, concatenation and a named capture group.  Matching is
    leftmost-first with backtracking priorities, as [regexp] specifies.  The
    matcher works on bytes; Go's works on UTF-8 runes.  For a pattern whose
    literals and positive classes are ASCII the two agree: a match cannot
    start inside a multi-byte rune, and a negated ASCII class accepts every
    byte of a non-ASCII rune (and every invalid byte, which Go decodes as
    U+FFFD of width one). *)

Module Regexp.

Inductive regex : Type :=
| Lit (s : string)
| Class (p : ascii -> bool)
| Plus (p : ascii -> bool)
| Cat (r1 r2 : regex)
| Group (name : string) (r : regex).

(** The text consumed between the input [s] and the remaining input [s']. *)
Definition consumed (s s' : string) : string :=
  substring 0 (String.length s - String.length s') s.

Section Matcher.
Context {R : Type}.

(** [p+], greedy: take one byte, prefer taking more, fall back to
    stopping here. *)
Fixpoint plus (p : ascii -> bool) (s : string) (k : string -> option R)
  : option R :=
  match s with
  | EmptyString => None
  | String c s' =>
      if p c then
        match plus p s' k with
        | Some r => Some r
        | None => k s'
        end
      else None
  end.

(** [run r s caps k]: match [r] at the start of [s], then continue with
    [k] on the rest; [caps] collects the captured groups in the order
    in which they close. *)
Fixpoint run (r : regex) (s : string) (caps : list string)
    (k : string -> list string -> option R) : option R :=
  match r with
  | Lit l =>
      match GoStrings.CutPrefix s l with
      | Some s' => k s' caps
      | None => None
      end
  | Class p =>
      match s with
      | String c s' => if p c then k s' caps else None
      | EmptyString => None
      end
  | Plus p => plus p s (fun s' => k s' caps)
  | Cat r1 r2 => run r1 s caps (fun s1 caps1 => run r2 s1 caps1 k)
  | Group _ r1 =>
      run r1 s caps (fun s' caps' => k s' (caps' ++ [consumed s s']))
  end.
End Matcher.

(** A match anchored at the start of [s]: the whole match followed by the
    submatches. *)
Definition matchHere (r : regex) (s : string) : option (list string) :=
  run r s [] (fun s' caps => Some (consumed s s' :: caps)).

(** [re.FindStringSubmatch(s)]: the leftmost match, [None] for Go's nil. *)
Fixpoint FindStringSubmatch (r : regex) (s : string) : option (list string) :=
  match matchHere r s with
  | Some m => Some m
  | None =>
      match s with
      | EmptyString => None
      | String _ s' => FindStringSubmatch r s'
      end
  end.

(** [re.SubexpNames()] without the leading entry for the whole match. *)
Fixpoint groupNames (r : regex) : list string :=
  match r with
  | Lit _ | Class _ | Plus _ => []
  | Cat r1 r2 => groupNames r1 ++ groupNames r2
  | Group name r1 => name :: groupNames r1
  end.

Fixpoint indexOf (name : string) (names : list string) (i : Z) : Z :=
  match names with
  | [] => (-1)%Z
  | n :: names' =>
      if String.eqb n name then i else indexOf name names' (i + 1)%Z
  end.

(** [re.SubexpIndex(name)]: the index of the first group with that name,
    -1 when there is none. *)
Definition SubexpIndex (r : regex) (name : string) : Z :=
  indexOf name (groupNames r) 1%Z.

(** [\s] of RE2: tab, line feed, form feed, carriage return, space. *)
Definition perl_space (c : ascii) : bool :=
  match c with
  | "009" | "010" | "012" | "013" | " " => true
  | _ => false
  end%char.

End Regexp.

(** ** The matcher of the plugin *)

(** [contains]: the first valid key equal to [key] ([exact]) or occurring in
    [key] (not [exact]); the empty string when there is none. *)
Fixpoint contains (key : string) (validKeys : list string) (exact : bool)
  : string :=
  match validKeys with
  | [] => ""
  | a :: validKeys' =>
      if exact then
        if String.eqb a key then a else contains key validKeys' exact
      else
        if GoStrings.Contains key a then a else contains key validKeys' exact
  end.

(** The compiled pattern [Bearer\s(?P<key>[^$]+)]. *)
Definition bearerRe : Regexp.regex :=
  Regexp.Cat (Regexp.Lit "Bearer")
    (Regexp.Cat (Regexp.Class Regexp.perl_space)
       (Regexp.Group "key"
          (Regexp.Plus (fun c => negb (Ascii.eqb c "$"%char))))).

(** Indexing a Go slice; out of range (a panic in Go) is [None]. *)
Definition slice_index (l : list string) (i : Z) : option string :=
  if (i <? 0)%Z then None else l !! Z.to_nat i.

(** [bearer] *)
Definition bearer (key : string) (validKeys : list string) : string :=
  let re := bearerRe in
  match Regexp.FindStringSubmatch re key with
  | None => ""
  | Some matches =>
      let keyIndex := Regexp.SubexpIndex re "key" in
      match slice_index matches keyIndex with
      | Some extractedKey => contains extractedKey validKeys true
      | None => ""
      end
  end.

(** ** Package [net/http]: header maps *)

Module NetHTTP.

Definition byte_in (c : ascii) (s : string) : bool :=
  existsb (Ascii.eqb c) (list_ascii_of_string s).

Definition isLower (c : ascii) : bool :=
  (97 <=? N_of_ascii c)%N && (N_of_ascii c <=? 122)%N.
Definition isUpper (c : ascii) : bool :=
  (65 <=? N_of_ascii c)%N && (N_of_ascii c <=? 90)%N.
Definition isDigit (c : ascii) : bool :=
  (48 <=? N_of_ascii c)%N && (N_of_ascii c <=? 57)%N.

(** The bytes of an HTTP token. *)
Definition validHeaderFieldByte (c : ascii) : bool :=
  isLower c || isUpper c || isDigit c || byte_in c "!#$%&'*+-.^_`|~".

(** First letter and every letter after a dash in upper case, the others
    in lower case. *)
Fixpoint canonicalCase (upper : bool) (s : string) : string :=
  match s with
  | EmptyString => EmptyString
  | String c s' =>
      let c' :=
        if upper && isLower c then ascii_of_N (N_of_ascii c - 32)
        else if negb upper && isUpper c then ascii_of_N (N_of_ascii c + 32)
        else c in
      String c' (canonicalCase (Ascii.eqb c' "-"%char) s')
  end.

(** [textproto.CanonicalMIMEHeaderKey]: a key with a byte that is not a
    token byte is returned unchanged. *)
Definition CanonicalMIMEHeaderKey (s : string) : string :=
  if forallb validHeaderFieldByte (list_ascii_of_string s)
  then canonicalCase true s else s.

(** [http.Header] is [map[string][]string]. *)
Abbreviation Header := (gmap string (list string)).

Definition values (h : Header) (k : string) : list string :=
  default [] (h !! k).

(** [h.Get(key)]: the first value of the canonical key, or the empty
    string. *)
Definition Get (h : Header) (key : string) : string :=
  match values h (CanonicalMIMEHeaderKey key) with
  | v :: _ => v
  | [] => ""
  end.

(** [h.Del(key)] *)
Definition Del (h : Header) (key : string) : Header :=
  delete (CanonicalMIMEHeaderKey key) h.

(** [h.Add(key, value)]: appends to the values of the canonical key. *)
Definition Add (h : Header) (key value : string) : Header :=
  let k := CanonicalMIMEHeaderKey key in
  <[k := values h k ++ [value]]> h.

End NetHTTP.

(** ** Package [net/url]: query strings and the request target *)

Module NetURL.

Inductive encoding : Type := encodePath | encodeQueryComponent.

(** [shouldEscape] for the two modes used here. *)
Definition shouldEscape (c : ascii) (mode : encoding) : bool :=
  if NetHTTP.isLower c || NetHTTP.isUpper c || NetHTTP.isDigit c then false
  else if NetHTTP.byte_in c "-_.~" then false
  else if NetHTTP.byte_in c "$&+,/:;=@" then
    match mode with
    | encodePath => false
    | encodeQueryComponent => true
    end
  else if Ascii.eqb c "?"%char then true
  else true.

Definition upperhex (n : N) : ascii :=
  if (n <? 10)%N then ascii_of_N (48 + n) else ascii_of_N (55 + n).

(** [escape]: percent-encoding; a space of a query component becomes [+]. *)
Fixpoint escape (s : string) (mode : encoding) : string :=
  match s with
  | EmptyString => EmptyString
  | String c s' =>
      if shouldEscape c mode then
        match mode, Ascii.eqb c " "%char with
        | encodeQueryComponent, true => String "+"%char (escape s' mode)
        | _, _ =>
            String "%"%char
              (String (upperhex (N_of_ascii c / 16))
                 (String (upperhex (N_of_ascii c mod 16)) (escape s' mode)))
        end
      else String c (escape s' mode)
  end.

Definition QueryEscape (s : string) : string := escape s encodeQueryComponent.

Definition unhex (c : ascii) : option N :=
  let n := N_of_ascii c in
  if NetHTTP.isDigit c then Some (n - 48)%N
  else if (97 <=? n)%N && (n <=? 102)%N then Some (n - 97 + 10)%N
  else if (65 <=? n)%N && (n <=? 70)%N then Some (n - 65 + 10)%N
  else None.

(** [QueryUnescape]: [None] for an [EscapeError]. *)
Fixpoint QueryUnescape (s : string) : option string :=
  match s with
  | EmptyString => Some EmptyString
  | String c s' =>
      if Ascii.eqb c "%"%char then
        match s' with
        | String h (String l s'') =>
            match unhex h, unhex l with
            | Some a, Some b =>
                String (ascii_of_N (16 * a + b)) <$> QueryUnescape s''
            | _, _ => None
            end
        | _ => None
        end
      else if Ascii.eqb c "+"%char then String " "%char <$> QueryUnescape s'
      else String c <$> QueryUnescape s'
  end.

(** The pieces of [s] between occurrences of [sep]. *)
Fixpoint split (sep : ascii) (s : string) : list string :=
  match s with
  | EmptyString => [EmptyString]
  | String c s' =>
      if Ascii.eqb c sep then EmptyString :: split sep s'
      else
        match split sep s' with
        | piece :: pieces => String c piece :: pieces
        | [] => [String c EmptyString]
        end
  end.

(** [strings.Cut(s, sep)] for a one-byte separator: the text before and
    after its first occurrence; all of [s] and nothing when it is absent. *)
Fixpoint Cut (s : string) (sep : ascii) : string * string :=
  match s with
  | EmptyString => (EmptyString, EmptyString)
  | String c s' =>
      if Ascii.eqb c sep then (EmptyString, s')
      else let '(before, after) := Cut s' sep in (String c before, after)
  end.

(** [url.Values] is [map[string][]string]. *)
Abbreviation Values := (gmap string (list string)).

(** One iteration of the loop of [parseQuery]: a setting with a semicolon,
    an empty setting, or one whose key or value does not unescape, is
    skipped. *)
Definition parsePair (m : Values) (setting : string) : Values :=
  if GoStrings.Contains setting ";" then m
  else if String.eqb setting "" then m
  else
    let '(key, value) := Cut setting "="%char in
    match QueryUnescape key with
    | None => m
    | Some key =>
        match QueryUnescape value with
        | None => m
        | Some value => <[key := NetHTTP.values m key ++ [value]]> m
        end
    end.

(** [url.ParseQuery], with the error dropped as [URL.Query] does. *)
Definition ParseQuery (query : string) : Values :=
  fold_left parsePair (split "&"%char query) ∅.

(** [v.Get(key)] *)
Definition ValuesGet (v : Values) (key : string) : string :=
  match NetHTTP.values v key with
  | x :: _ => x
  | [] => ""
  end.

(** [v.Del(key)] *)
Definition ValuesDel (v : Values) (key : string) : Values := delete key v.

Fixpoint join (sep : string) (l : list string) : string :=
  match l with
  | [] => ""
  | [x] => x
  | x :: l' => x +:+ sep +:+ join sep l'
  end.

(** [v.Encode()]: [key=value] settings joined by [&], keys in increasing
    byte order, keys and values escaped. *)
Definition Encode (v : Values) : string :=
  let keys := merge_sort String.le (map fst (map_to_list v)) in
  join "&"
    (flat_map
       (fun k =>
          map (fun x => QueryEscape k +:+ "=" +:+ QueryEscape x)
            (NetHTTP.values v k))
       keys).

(** The fields of [url.URL] that the plugin reads or writes. *)
Record URL : Type := mkURL { Path : string; RawQuery : string }.

(** [u.Query()] *)
Definition Query (u : URL) : Values := ParseQuery (RawQuery u).

(** [u.EscapedPath()] of a URL whose [RawPath] is not set. *)
Definition EscapedPath (u : URL) : string :=
  if String.eqb (Path u) "*" then "*" else escape (Path u) encodePath.

(** [u.RequestURI()] of a URL that is not opaque. *)
Definition RequestURI (u : URL) : string :=
  let result := EscapedPath u in
  let result := if String.eqb result "" then "/" else result in
  if String.eqb (RawQuery u) "" then result
  else result +:+ "?" +:+ RawQuery u.

End NetURL.

(** ** Package [encoding/json] *)

Module JSON.

Definition quote : string := String (ascii_of_nat 34) EmptyString.

Definition lowerhex (n : N) : ascii :=
  if (n <? 10)%N then ascii_of_N (48 + n) else ascii_of_N (87 + n).

Definition u00 (c : ascii) : string :=
  "\u00" +:+ String (lowerhex (N_of_ascii c / 16))
              (String (lowerhex (N_of_ascii c mod 16)) EmptyString).

(** The body of a JSON string literal with HTML escaping, as an [Encoder]
    writes it.  Bytes from 128 on are copied. *)
Fixpoint escapeString (s : string) : string :=
  match s with
  | EmptyString => EmptyString
  | String c s' =>
      (if Ascii.eqb c "\"%char then "\\"
       else if Ascii.eqb c (ascii_of_nat 34) then "\" +:+ quote
       else if Ascii.eqb c "008"%char then "\b"
       else if Ascii.eqb c "012"%char then "\f"
       else if Ascii.eqb c "010"%char then "\n"
       else if Ascii.eqb c "013"%char then "\r"
       else if Ascii.eqb c "009"%char then "\t"
       else if (N_of_ascii c <? 32)%N then u00 c
       else if NetHTTP.byte_in c "<>&" then u00 c
       else String c EmptyString)
      +:+ escapeString s'
  end.

Definition String_ (s : string) : string := quote +:+ escapeString s +:+ quote.

Definition Int (n : Z) : string := NilZero.string_of_int (Z.to_int n).

Definition member (name value : string) : string :=
  quote +:+ name +:+ quote +:+ ":" +:+ value.

Definition newline : string := String "010"%char EmptyString.

End JSON.

(** ** The plugin: configuration and construction *)

Record Config : Type := mkConfig {
  AuthenticationHeader : bool;
  AuthenticationHeaderName : string;
  BearerHeader : bool;
  BearerHeaderName : string;
  QueryParam : bool;
  QueryParamName : string;
  PathSegment : bool;
  RemoveQueryParamsOnSuccess : bool;
  Keys : list string;
  RemoveHeadersOnSuccess : bool;
  InternalForwardHeaderName : string;
  InternalErrorRoute : string
}.

Record Response : Type := mkResponse {
  Message : string;
  StatusCode : Z
}.

Definition StatusForbidden : Z := 403.

(** [CreateConfig] *)
Definition CreateConfig : Config := {|
  AuthenticationHeader := true;
  AuthenticationHeaderName := "X-API-KEY";
  BearerHeader := true;
  BearerHeaderName := "Authorization";
  QueryParam := true;
  QueryParamName := "token";
  PathSegment := true;
  RemoveQueryParamsOnSuccess := true;
  Keys := [];
  RemoveHeadersOnSuccess := true;
  InternalForwardHeaderName := "";
  InternalErrorRoute := ""
|}.

(** An [*http.Request]: the fields that the plugin reads or writes. *)
Record Request : Type := mkRequest {
  Header : NetHTTP.Header;
  URL : NetURL.URL;
  RequestURI : string
}.

(** An [http.ResponseWriter] is an interface; its model is the sequence of
    calls made on it, together with the error, if any, that its [Write]
    returns. *)
Inductive RwCall : Type :=
| HeaderSet (key value : string)
| WriteHeader (statusCode : Z)
| Write (data : string).

Record ResponseWriter : Type := mkResponseWriter {
  calls : list RwCall;
  writeError : option string
}.

(** An [http.Handler]: what it does to the response writer and to the
    request it is given. *)
Definition Handler : Type :=
  ResponseWriter -> Request -> ResponseWriter * Request.

Record KeyAuth : Type := mkKeyAuth {
  next : Handler;
  authenticationHeader : bool;
  authenticationHeaderName : string;
  bearerHeader : bool;
  bearerHeaderName : string;
  queryParam : bool;
  queryParamName : string;
  pathSegment : bool;
  removeQueryParamsOnSuccess : bool;
  keys : list string;
  removeHeadersOnSuccess : bool;
  internalForwardHeaderName : string;
  internalErrorRoute : string
}.

(** What the plugin prints on standard output, one entry per line, with the
    values that the line is formatted from. *)
Inductive LogLine : Type :=
| Creating (name : string) (config : Config)
| InfoKey (key : string) (url : NetURL.URL)
| SendError (err : string).

(** [New]: the line printed, and the handler or the error.  The context
    argument of the Go function is only printed and is left out. *)
Definition New (next : Handler) (config : Config) (name : string)
  : list LogLine * (KeyAuth + string) :=
  let out := [Creating name config] in
  if (length (Keys config) =? 0)%nat then
    (out, inr "must specify at least one valid key")
  else if negb (AuthenticationHeader config) && negb (BearerHeader config)
          && negb (QueryParam config) && negb (PathSegment config) then
    (out, inr "at least one method must be true")
  else
    (out, inl {|
      next := next;
      authenticationHeader := AuthenticationHeader config;
      authenticationHeaderName := AuthenticationHeaderName config;
      bearerHeader := BearerHeader config;
      bearerHeaderName := BearerHeaderName config;
      queryParam := QueryParam config;
      queryParamName := QueryParamName config;
      pathSegment := PathSegment config;
      removeQueryParamsOnSuccess := RemoveQueryParamsOnSuccess config;
      keys := Keys config;
      removeHeadersOnSuccess := RemoveHeadersOnSuccess config;
      internalForwardHeaderName := InternalForwardHeaderName config;
      internalErrorRoute := InternalErrorRoute config
    |}).

(** ** The plugin: serving a request *)

(** The state that one call of [ServeHTTP] works on: the response writer and
    the request behind its two pointers, standard output, and the requests
    handed to [next] so far, oldest first. *)
Record World : Type := mkWorld {
  rw : ResponseWriter;
  req : Request;
  stdout : list LogLine;
  served : list Request
}.

Definition setHeader (h : NetHTTP.Header) (r : Request) : Request :=
  {| Header := h; URL := URL r; RequestURI := RequestURI r |}.
Definition setPath (p : string) (r : Request) : Request :=
  {| Header := Header r;
     URL := {| NetURL.Path := p; NetURL.RawQuery := NetURL.RawQuery (URL r) |};
     RequestURI := RequestURI r |}.
Definition setRawQuery (q : string) (r : Request) : Request :=
  {| Header := Header r;
     URL := {| NetURL.Path := NetURL.Path (URL r); NetURL.RawQuery := q |};
     RequestURI := RequestURI r |}.
Definition setRequestURI (u : string) (r : Request) : Request :=
  {| Header := Header r; URL := URL r; RequestURI := u |}.
Definition setReq (r : Request) (w : World) : World :=
  {| rw := rw w; req := r; stdout := stdout w; served := served w |}.
Definition call (c : RwCall) (w : World) : World :=
  {| rw := {| calls := calls (rw w) ++ [c]; writeError := writeError (rw w) |};
     req := req w; stdout := stdout w; served := served w |}.
Definition print (l : LogLine) (w : World) : World :=
  {| rw := rw w; req := req w; stdout := stdout w ++ [l]; served := served w |}.

Definition nonEmpty (s : string) : bool := negb (String.eqb s "").

(** [ka.ok] *)
Definition ok (ka : KeyAuth) (w : World) (key : string) : World :=
  let w := print (InfoKey key (URL (req w))) w in
  let w :=
    if nonEmpty (internalForwardHeaderName ka) then
      setReq (setHeader
                (NetHTTP.Add (Header (req w)) (internalForwardHeaderName ka) key)
                (req w)) w
    else w in
  let w := setReq (setRequestURI (NetURL.RequestURI (URL (req w))) (req w)) w in
  let '(rw', req') := next ka (rw w) (req w) in
  {| rw := rw'; req := req'; stdout := stdout w;
     served := served w ++ [req w] |}.

(** [json.NewEncoder(rw).Encode(response)]: one [Write] of the encoding
    followed by a newline; the result is the error of that [Write]. *)
Definition encodeResponse (response : Response) : string :=
  "{" +:+ JSON.member "message" (JSON.String_ (Message response))
  +:+ "," +:+ JSON.member "status_code" (JSON.Int (StatusCode response))
  +:+ "}" +:+ JSON.newline.

Definition Encode (w : World) (response : Response) : World * option string :=
  (call (Write (encodeResponse response)) w, writeError (rw w)).

(** A block of [ServeHTTP] either returns ([Some]) or falls through to the
    rest of the function. *)
Notation "'block' b 'rest' k" :=
  (match b with Some w' => w' | None => k end)
  (at level 10, b at level 200, k at level 200, only parsing).

(** [ka.ServeHTTP] *)
Definition ServeHTTP (ka : KeyAuth) (w : World) : World :=
  block
    (if authenticationHeader ka then
       let matchedKey :=
         contains (NetHTTP.Get (Header (req w)) (authenticationHeaderName ka))
           (keys ka) true in
       if nonEmpty matchedKey then
         let w :=
           if removeHeadersOnSuccess ka then
             setReq (setHeader
                       (NetHTTP.Del (Header (req w)) (authenticationHeaderName ka))
                       (req w)) w
           else w in
         Some (ok ka w matchedKey)
       else None
     else None)
  rest block
    (if bearerHeader ka then
       let matchedKey :=
         bearer (NetHTTP.Get (Header (req w)) (bearerHeaderName ka)) (keys ka) in
       if nonEmpty matchedKey then
         let w :=
           if removeHeadersOnSuccess ka then
             setReq (setHeader
                       (NetHTTP.Del (Header (req w)) (bearerHeaderName ka))
                       (req w)) w
           else w in
         Some (ok ka w matchedKey)
       else None
     else None)
  rest block
    (if queryParam ka then
       let qs := NetURL.Query (URL (req w)) in
       let matchedKey :=
         contains (NetURL.ValuesGet qs (queryParamName ka)) (keys ka) true in
       if nonEmpty matchedKey then
         let qs :=
           if removeQueryParamsOnSuccess ka then
             NetURL.ValuesDel qs (queryParamName ka)
           else qs in
         let w := setReq (setRawQuery (NetURL.Encode qs) (req w)) w in
         Some (ok ka w matchedKey)
       else None
     else None)
  rest block
    (if pathSegment ka then
       let matchedKey := contains (NetURL.Path (URL (req w))) (keys ka) false in
       if nonEmpty matchedKey then Some (ok ka w matchedKey) else None
     else None)
  rest
    if nonEmpty (internalErrorRoute ka) then
      setReq (setRawQuery "" (setPath (internalErrorRoute ka) (req w))) w
    else
      let response :=
        {| Message := "Invalid or missing API Key";
           StatusCode := StatusForbidden |} in
      let w :=
        call (HeaderSet "Content-Type" "application/json; charset=utf-8") w in
      let w := call (WriteHeader (StatusCode response)) w in
      match Encode w response with
      | (w, Some err) => print (SendError err) w
      | (w, None) => w
      end.

(** ** The contracts of the specification

    The definitions of this part follow the wording of the specification,
    not the code; the theorems below compare the two. *)

(** A string occurs in another as a contiguous substring. *)
Definition occursIn (a c : string) : Prop := exists u v, c = u +:+ a +:+ v.

(** Every byte of a string satisfies a test. *)
Definition allBytes (p : ascii -> bool) (s : string) : bool :=
  forallb p (list_ascii_of_string s).

Definition notDollar (c : ascii) : bool := negb (Ascii.eqb c "$"%char).

(** The shape [Bearer], then one or more whitespace bytes, then a token of
    one or more bytes up to the end of the value. *)
Definition bearerShape (h : string) : Prop :=
  exists ws tok,
    h = "Bearer" +:+ ws +:+ tok /\ ws <> "" /\
    allBytes Regexp.perl_space ws = true /\ tok <> "".

(** The pattern of [bearer] occurs in a header value: [Bearer], one
    whitespace byte and a token of one or more bytes other than the dollar
    sign, anywhere in the value. *)
Definition bearerPatternOccurs (h : string) : Prop :=
  exists pre w tok post,
    h = pre +:+ "Bearer" +:+ String w (tok +:+ post) /\
    Regexp.perl_space w = true /\ tok <> "" /\
    allBytes notDollar tok = true.

(** The longest prefix of bytes that satisfy a test, and what follows it. *)
Fixpoint takeWhile (p : ascii -> bool) (s : string) : string :=
  match s with
  | EmptyString => EmptyString
  | String c s' => if p c then String c (takeWhile p s') else EmptyString
  end.

Fixpoint dropWhile (p : ascii -> bool) (s : string) : string :=
  match s with
  | EmptyString => EmptyString
  | String c s' => if p c then dropWhile p s' else s
  end.

(** The text that [bearer] compares with the valid keys, when the header
    value matches the pattern. *)
Definition bearerToken (h : string) : option string :=
  match Regexp.FindStringSubmatch bearerRe h with
  | None => None
  | Some matches => slice_index matches (Regexp.SubexpIndex bearerRe "key")
  end.

(** The four extraction methods, in the order of the dispatch contract. *)
Inductive Method : Type := ByHeader | ByBearer | ByQuery | ByPath.

Definition methods : list Method := [ByHeader; ByBearer; ByQuery; ByPath].

Definition enabled (ka : KeyAuth) (m : Method) : bool :=
  match m with
  | ByHeader => authenticationHeader ka
  | ByBearer => bearerHeader ka
  | ByQuery => queryParam ka
  | ByPath => pathSegment ka
  end.

(** The match result of a method on a request: the matched credential, or
    the empty string for no match. *)
Definition extract (ka : KeyAuth) (m : Method) (r : Request) : string :=
  match m with
  | ByHeader =>
      contains (NetHTTP.Get (Header r) (authenticationHeaderName ka))
        (keys ka) true
  | ByBearer =>
      bearer (NetHTTP.Get (Header r) (bearerHeaderName ka)) (keys ka)
  | ByQuery =>
      contains (NetURL.ValuesGet (NetURL.Query (URL r)) (queryParamName ka))
        (keys ka) true
  | ByPath => contains (NetURL.Path (URL r)) (keys ka) false
  end.

(** A method is satisfied: it is enabled and it matches. *)
Definition satisfied (ka : KeyAuth) (r : Request) (m : Method) : bool :=
  enabled ka m && nonEmpty (extract ka m r).

(** The first satisfied method, in the order of [methods]. *)
Definition firstMatch (ka : KeyAuth) (r : Request) : option Method :=
  List.find (satisfied ka r) methods.

(** The query parameters that are encoded back into the request when the
    query-parameter method matched. *)
Definition keptQuery (ka : KeyAuth) (r : Request) : NetURL.Values :=
  if removeQueryParamsOnSuccess ka then
    NetURL.ValuesDel (NetURL.Query (URL r)) (queryParamName ka)
  else NetURL.Query (URL r).

(** The mutation of the request that goes with a match of each method. *)
Definition sanitize (ka : KeyAuth) (m : Method) (r : Request) : Request :=
  match m with
  | ByHeader =>
      if removeHeadersOnSuccess ka then
        setHeader (NetHTTP.Del (Header r) (authenticationHeaderName ka)) r
      else r
  | ByBearer =>
      if removeHeadersOnSuccess ka then
        setHeader (NetHTTP.Del (Header r) (bearerHeaderName ka)) r
      else r
  | ByQuery => setRawQuery (NetURL.Encode (keptQuery ka r)) r
  | ByPath => r
  end.

(** The request that the downstream handler receives after a match with
    [key]: the forwarding header injected when it is configured, and the
    request target recomputed. *)
Definition forwarded (ka : KeyAuth) (r : Request) (key : string) : Request :=
  let r :=
    if nonEmpty (internalForwardHeaderName ka) then
      setHeader (NetHTTP.Add (Header r) (internalForwardHeaderName ka) key) r
    else r in
  setRequestURI (NetURL.RequestURI (URL r)) r.

(** An entry of the allow-list is what a method reads from the request. *)
Definition entryMatches (ka : KeyAuth) (r : Request) (m : Method) (a : string)
  : Prop :=
  match m with
  | ByHeader => NetHTTP.Get (Header r) (authenticationHeaderName ka) = a
  | ByBearer =>
      bearerToken (NetHTTP.Get (Header r) (bearerHeaderName ka)) = Some a
  | ByQuery =>
      NetURL.ValuesGet (NetURL.Query (URL r)) (queryParamName ka) = a
  | ByPath => GoStrings.Contains (NetURL.Path (URL r)) a = true
  end.

(** The JSON document of the rejection, without what follows it. *)
Definition forbiddenJSON : string :=
  "{" +:+ JSON.quote +:+ "message" +:+ JSON.quote +:+ ":"
  +:+ JSON.quote +:+ "Invalid or missing API Key" +:+ JSON.quote +:+ ","
  +:+ JSON.quote +:+ "status_code" +:+ JSON.quote +:+ ":403}".

(** The calls on the response writer that make up the rejection. *)
Definition rejection (body : string) : list RwCall :=
  [HeaderSet "Content-Type" "application/json; charset=utf-8";
   WriteHeader 403; Write body].

(** ** Handlers and requests of the examples *)

(** A downstream handler that leaves the response writer and the request
    as they are. *)
Definition passThrough : Handler := fun rw r => (rw, r).

(** A request as it arrives: nothing written, printed or forwarded yet. *)
Definition arrive (r : Request) : World :=
  {| rw := {| calls := []; writeError := None |};
     req := r; stdout := []; served := [] |}.

(** The handler built from a configuration with the four methods enabled
    and one key. *)
Definition guard (key forwardName errorRoute : string) (removeQuery : bool)
  : KeyAuth := {|
  next := passThrough;
  authenticationHeader := true;
  authenticationHeaderName := "X-API-KEY";
  bearerHeader := true;
  bearerHeaderName := "Authorization";
  queryParam := true;
  queryParamName := "token";
  pathSegment := true;
  removeQueryParamsOnSuccess := removeQuery;
  keys := [key];
  removeHeadersOnSuccess := true;
  internalForwardHeaderName := forwardName;
  internalErrorRoute := errorRoute
|}.

(** A wrong key in the key header and a valid bearer token. *)
Definition bearerRequest : Request := {|
  Header := {[ "X-Api-Key" := ["guess"]; "Authorization" := ["Bearer k1"] ]};
  URL := {| NetURL.Path := "/items"; NetURL.RawQuery := "" |};
  RequestURI := "/items"
|}.

(** The key as a query parameter, among others. *)
Definition queryRequest : Request := {|
  Header := ∅;
  URL := {| NetURL.Path := "/items"; NetURL.RawQuery := "token=k1&b=2&a=1" |};
  RequestURI := "/items?token=k1&b=2&a=1"
|}.

(** The key inside a segment of the path. *)
Definition pathRequest : Request := {|
  Header := ∅;
  URL := {| NetURL.Path := "/v1/xk1y/items"; NetURL.RawQuery := "" |};
  RequestURI := "/v1/xk1y/items"
|}.

(** No credential anywhere. *)
Definition anonymousRequest : Request := {|
  Header := ∅;
  URL := {| NetURL.Path := "/items"; NetURL.RawQuery := "page=2" |};
  RequestURI := "/items?page=2"
|}.

(** The valid key in the key header and, once more, as a query parameter. *)
Definition headerRequest : Request := {|
  Header := {[ "X-Api-Key" := ["k1"]; "Accept" := ["text/html"] ]};
  URL := {| NetURL.Path := "/items"; NetURL.RawQuery := "token=k1" |};
  RequestURI := "/items?token=k1"
|}.

(** A valid bearer token, and the forwarding header sent by the client. *)
Definition spoofRequest : Request := {|
  Header := {[ "Authorization" := ["Bearer k1"]; "X-Auth-Key" := ["admin"] ]};
  URL := {| NetURL.Path := "/items"; NetURL.RawQuery := "" |};
  RequestURI := "/items"
|}.


(** ** Notions of the further properties *)

(** A configuration with other keys. *)
Definition withKeys (ks : list string) (c : Config) : Config := {|
  AuthenticationHeader := AuthenticationHeader c;
  AuthenticationHeaderName := AuthenticationHeaderName c;
  BearerHeader := BearerHeader c;
  BearerHeaderName := BearerHeaderName c;
  QueryParam := QueryParam c;
  QueryParamName := QueryParamName c;
  PathSegment := PathSegment c;
  RemoveQueryParamsOnSuccess := RemoveQueryParamsOnSuccess c;
  Keys := ks;
  RemoveHeadersOnSuccess := RemoveHeadersOnSuccess c;
  InternalForwardHeaderName := InternalForwardHeaderName c;
  InternalErrorRoute := InternalErrorRoute c
|}.

(** A handler with other header names. *)
Definition withHeaderNames (keyName bearerName forwardName : string)
    (ka : KeyAuth) : KeyAuth := {|
  next := next ka;
  authenticationHeader := authenticationHeader ka;
  authenticationHeaderName := keyName;
  bearerHeader := bearerHeader ka;
  bearerHeaderName := bearerName;
  queryParam := queryParam ka;
  queryParamName := queryParamName ka;
  pathSegment := pathSegment ka;
  removeQueryParamsOnSuccess := removeQueryParamsOnSuccess ka;
  keys := keys ka;
  removeHeadersOnSuccess := removeHeadersOnSuccess ka;
  internalForwardHeaderName := forwardName;
  internalErrorRoute := internalErrorRoute ka
|}.

(** The header that a header method reads its credential from. *)
Definition credentialHeader (ka : KeyAuth) (m : Method) : option string :=
  match m with
  | ByHeader => Some (authenticationHeaderName ka)
  | ByBearer => Some (bearerHeaderName ka)
  | ByQuery | ByPath => None
  end.

(** The canonical key under which the forwarding header is added, when one
    is configured. *)
Definition forwardKey (ka : KeyAuth) : option string :=
  if nonEmpty (internalForwardHeaderName ka) then
    Some (NetHTTP.CanonicalMIMEHeaderKey (internalForwardHeaderName ka))
  else None.

(** Query parameters as [ParseQuery] builds them: no name without a value. *)
Definition noEmptyValues (v : NetURL.Values) : Prop :=
  forall k, v !! k <> Some [].

(** A byte that is none of the separators of a query string. *)
Definition plain (c : ascii) : bool := negb (NetHTTP.byte_in c "&=;").

(** One setting of an encoded query string. *)
Definition setting (k x : string) : string :=
  NetURL.QueryEscape k +:+ "=" +:+ NetURL.QueryEscape x.

(** * Properties *)

(** ** Strings *)

Section StringFacts.

Lemma append_cons c (s t : string) : String c s +:+ t = String c (s +:+ t).
Proof. reflexivity. Qed.

Lemma append_empty_r (s : string) : s +:+ "" = s.
Proof. induction s as [|c s IH]; [reflexivity|]. rewrite append_cons, IH. reflexivity. Qed.

Lemma append_assoc (s t u : string) : (s +:+ t) +:+ u = s +:+ (t +:+ u).
Proof.
  induction s as [|c s IH]; [reflexivity|].
  rewrite !append_cons, IH. reflexivity.
Qed.

Lemma length_append (s t : string) :
  String.length (s +:+ t) = String.length s + String.length t.
Proof.
  induction s as [|c s IH]; [reflexivity|].
  rewrite append_cons. cbn [String.length]. rewrite IH. reflexivity.
Qed.

Lemma substring_prefix (s t : string) :
  substring 0 (String.length s) (s +:+ t) = s.
Proof.
  induction s as [|c s IH].
  - destruct t; reflexivity.
  - rewrite append_cons. cbn [String.length substring]. rewrite IH. reflexivity.
Qed.

Lemma consumed_append (s t : string) : Regexp.consumed (s +:+ t) t = s.
Proof.
  unfold Regexp.consumed. rewrite length_append.
  replace (String.length s + String.length t - String.length t)
    with (String.length s) by lia.
  apply substring_prefix.
Qed.

Lemma consumed_all (s : string) : Regexp.consumed s "" = s.
Proof. rewrite <- (append_empty_r s) at 1. apply consumed_append. Qed.

Lemma eqb_nonEmpty (s : string) : nonEmpty s = true <-> s <> "".
Proof.
  unfold nonEmpty. destruct (String.eqb_spec s "") as [->|Hne]; cbn.
  - split; [discriminate | intros H; now elim H].
  - split; [intros _; exact Hne | reflexivity].
Qed.

Lemma nonEmpty_false (s : string) : nonEmpty s = false <-> s = "".
Proof.
  unfold nonEmpty. destruct (String.eqb_spec s "") as [->|Hne]; cbn.
  - split; reflexivity.
  - split; [discriminate | intros H; now elim Hne].
Qed.

Lemma HasPrefix_spec (s p : string) :
  GoStrings.HasPrefix s p = true <-> exists r, s = p +:+ r.
Proof.
  revert s. induction p as [|c p IH]; intros s; cbn [GoStrings.HasPrefix].
  - split; [intros _; exists s; reflexivity | reflexivity].
  - destruct s as [|d s].
    + split; [discriminate | intros [r Hr]; discriminate Hr].
    + rewrite andb_true_iff, IH. split.
      * intros [Hc [r ->]]. apply Ascii.eqb_eq in Hc. subst d.
        exists r. reflexivity.
      * intros [r Hr]. rewrite append_cons in Hr. injection Hr as -> ->.
        split; [apply Ascii.eqb_refl | exists r; reflexivity].
Qed.

Lemma Contains_spec (s a : string) :
  GoStrings.Contains s a = true <-> occursIn a s.
Proof.
  unfold occursIn. induction s as [|c s IH]; cbn [GoStrings.Contains].
  - rewrite orb_false_r, HasPrefix_spec. split.
    + intros [r Hr]. exists "", r. exact Hr.
    + intros [u [v Huv]]. destruct u as [|d u]; [|discriminate Huv].
      exists v. exact Huv.
  - rewrite orb_true_iff, HasPrefix_spec, IH. split.
    + intros [[r Hr] | [u [v Huv]]].
      * exists "", r. exact Hr.
      * exists (String c u), v. rewrite append_cons, Huv. reflexivity.
    + intros [u [v Huv]]. destruct u as [|d u].
      * left. exists v. exact Huv.
      * right. rewrite append_cons in Huv. injection Huv as -> ->.
        exists u, v. reflexivity.
Qed.

Lemma Contains_empty (s : string) : GoStrings.Contains s "" = true.
Proof. destruct s; reflexivity. Qed.

Lemma CutPrefix_append (p r : string) : GoStrings.CutPrefix (p +:+ r) p = Some r.
Proof.
  induction p as [|c p IH]; [reflexivity|].
  rewrite append_cons. cbn [GoStrings.CutPrefix].
  rewrite Ascii.eqb_refl. exact IH.
Qed.

Lemma CutPrefix_Some (s p r : string) :
  GoStrings.CutPrefix s p = Some r -> s = p +:+ r.
Proof.
  revert s. induction p as [|c p IH]; intros s; cbn [GoStrings.CutPrefix].
  - intros [= ->]. reflexivity.
  - destruct s as [|d s]; [discriminate|].
    destruct (Ascii.eqb_spec d c) as [->|]; [|discriminate].
    intros H. rewrite (IH _ H). reflexivity.
Qed.

End StringFacts.

(** ** The matcher: [contains] *)

Section ContainsFacts.

(** A match of [contains] is a non-empty member of the valid keys. *)
Lemma contains_member key validKeys policy :
  contains key validKeys policy <> "" ->
  In (contains key validKeys policy) validKeys.
Proof.
  induction validKeys as [|a l IH]; cbn [contains]; [congruence|].
  destruct policy.
  - destruct (String.eqb a key); [left; reflexivity | right; auto].
  - destruct (GoStrings.Contains key a); [left; reflexivity | right; auto].
Qed.

Lemma contains_exact_eq key validKeys :
  contains key validKeys true <> "" -> contains key validKeys true = key.
Proof.
  induction validKeys as [|a l IH]; cbn [contains]; [congruence|].
  destruct (String.eqb_spec a key) as [->|]; auto.
Qed.

Lemma contains_exact_In key validKeys :
  In key validKeys -> contains key validKeys true = key.
Proof.
  induction validKeys as [|a l IH]; cbn [contains In]; [tauto|].
  intros [->|Hin].
  - rewrite String.eqb_refl. reflexivity.
  - destruct (String.eqb_spec a key) as [->|]; auto.
Qed.

Lemma contains_substring_occurs key validKeys :
  contains key validKeys false <> "" ->
  GoStrings.Contains key (contains key validKeys false) = true.
Proof.
  induction validKeys as [|a l IH]; cbn [contains]; [congruence|].
  destruct (GoStrings.Contains key a) eqn:E; auto.
Qed.

(** The first qualifying member wins. *)
Lemma contains_substring_first key pre a post :
  (forall b, In b pre -> GoStrings.Contains key b = false) ->
  GoStrings.Contains key a = true ->
  contains key (pre ++ a :: post) false = a.
Proof.
  induction pre as [|b pre IH]; intros Hpre Ha; cbn [contains app].
  - rewrite Ha. reflexivity.
  - rewrite (Hpre b) by (left; reflexivity).
    apply IH; [|exact Ha]. intros b' Hb'. apply Hpre. right. exact Hb'.
Qed.

Lemma contains_none key validKeys (policy : bool) :
  (forall a, In a validKeys -> a <> "" ->
             if policy then a <> key else GoStrings.Contains key a = false) ->
  contains key validKeys policy = "".
Proof.
  induction validKeys as [|a l IH]; intros H; cbn [contains]; [reflexivity|].
  assert (IH' : contains key l policy = "")
    by (apply IH; intros b Hb; apply H; right; exact Hb).
  destruct (String.eqb_spec a "") as [->|Hne].
  - destruct policy; [destruct (String.eqb "" key)|
                     destruct (GoStrings.Contains key "")]; auto.
  - specialize (H a (or_introl eq_refl) Hne). destruct policy.
    + destruct (String.eqb_spec a key); [contradiction | exact IH'].
    + rewrite H. exact IH'.
Qed.

Lemma contains_empty_candidate validKeys policy :
  contains "" validKeys policy = "".
Proof.
  apply contains_none. intros a _ Hne. destruct policy; [exact Hne|].
  destruct a; [contradiction | reflexivity].
Qed.

End ContainsFacts.

(** ** The matcher: the pattern of [bearer] *)

Section BearerFacts.

Lemma takeWhile_dropWhile p s : takeWhile p s +:+ dropWhile p s = s.
Proof.
  induction s as [|c s IH]; [reflexivity|]. cbn [takeWhile dropWhile].
  destruct (p c); [|reflexivity]. rewrite append_cons, IH. reflexivity.
Qed.

Lemma takeWhile_empty p s : nonEmpty (takeWhile p s) = false -> dropWhile p s = s.
Proof.
  destruct s as [|c s]; [reflexivity|]. cbn [takeWhile dropWhile].
  destruct (p c); [discriminate | reflexivity].
Qed.

Lemma takeWhile_allBytes p s : allBytes p (takeWhile p s) = true.
Proof.
  unfold allBytes. induction s as [|c s IH]; [reflexivity|]. cbn [takeWhile].
  destruct (p c) eqn:E; [|reflexivity].
  cbn [list_ascii_of_string forallb]. rewrite E, IH. reflexivity.
Qed.

Lemma dropWhile_stops p s :
  dropWhile p s = "" \/ exists c r, dropWhile p s = String c r /\ p c = false.
Proof.
  induction s as [|c s IH]; [left; reflexivity|]. cbn [dropWhile].
  destruct (p c) eqn:E; [exact IH|]. right. exists c, s. split; [reflexivity | exact E].
Qed.

Lemma allBytes_takeWhile p s :
  allBytes p s = true -> takeWhile p s = s /\ dropWhile p s = "".
Proof.
  unfold allBytes. induction s as [|c s IH]; [split; reflexivity|].
  cbn [list_ascii_of_string forallb takeWhile dropWhile].
  intros H. apply andb_true_iff in H as [Hc Hs]. rewrite Hc.
  destruct (IH Hs) as [-> ->]. split; reflexivity.
Qed.

(** With a continuation that accepts whatever is left, the repetition
    takes the longest run. *)
Lemma plus_greedy {R : Type} p s (k : string -> option R) :
  (forall s', k s' <> None) ->
  Regexp.plus p s k =
    if nonEmpty (takeWhile p s) then k (dropWhile p s) else None.
Proof.
  intros Hk. induction s as [|c s IH]; [reflexivity|].
  cbn [Regexp.plus takeWhile dropWhile].
  destruct (p c); [|reflexivity]. rewrite IH.
  change (nonEmpty (String c (takeWhile p s))) with true. cbv iota.
  destruct (nonEmpty (takeWhile p s)) eqn:E.
  - destruct (k (dropWhile p s)) eqn:Ek; [reflexivity | now elim (Hk _ Ek)].
  - rewrite (takeWhile_empty _ _ E). reflexivity.
Qed.

(** A match of the pattern at the start of [s], read off the text. *)
Lemma matchHere_bearer s :
  Regexp.matchHere bearerRe s =
    match GoStrings.CutPrefix s "Bearer" with
    | Some (String w t) =>
        if Regexp.perl_space w then
          if nonEmpty (takeWhile notDollar t) then
            Some [Regexp.consumed s (dropWhile notDollar t);
                  Regexp.consumed t (dropWhile notDollar t)]
          else None
        else None
    | _ => None
    end.
Proof.
  unfold Regexp.matchHere, bearerRe. cbn [Regexp.run].
  destruct (GoStrings.CutPrefix s "Bearer") as [[|w t]|]; try reflexivity.
  destruct (Regexp.perl_space w); [|reflexivity].
  rewrite plus_greedy by discriminate. reflexivity.
Qed.

Lemma FindStringSubmatch_Some r s m :
  Regexp.FindStringSubmatch r s = Some m ->
  exists pre s', s = pre +:+ s' /\ Regexp.matchHere r s' = Some m.
Proof.
  induction s as [|c s IH]; cbn [Regexp.FindStringSubmatch].
  - destruct (Regexp.matchHere r "") eqn:E; [|discriminate].
    intros [= <-]. exists "", "". split; [reflexivity | exact E].
  - destruct (Regexp.matchHere r (String c s)) eqn:E.
    + intros [= <-]. exists "", (String c s). split; [reflexivity | exact E].
    + intros H. destruct (IH H) as (pre & s' & -> & Hm).
      exists (String c pre), s'. split; [reflexivity | exact Hm].
Qed.

Lemma FindStringSubmatch_here r s m :
  Regexp.matchHere r s = Some m -> Regexp.FindStringSubmatch r s = Some m.
Proof. intros H. destruct s; cbn [Regexp.FindStringSubmatch]; rewrite H; reflexivity. Qed.

(** [bearer] compares the token of the pattern, exactly. *)
Lemma bearer_bearerToken h validKeys :
  bearer h validKeys =
    match bearerToken h with
    | Some tok => contains tok validKeys true
    | None => ""
    end.
Proof.
  unfold bearer, bearerToken.
  destruct (Regexp.FindStringSubmatch bearerRe h); reflexivity.
Qed.

(** Where the token of a matching header value comes from. *)
Lemma bearerToken_Some h tok :
  bearerToken h = Some tok ->
  exists pre w post,
    h = pre +:+ "Bearer" +:+ String w (tok +:+ post) /\
    Regexp.perl_space w = true /\ tok <> "" /\
    allBytes notDollar tok = true /\
    (post = "" \/ exists post', post = String "$"%char post').
Proof.
  unfold bearerToken.
  destruct (Regexp.FindStringSubmatch bearerRe h) as [m|] eqn:E; [|discriminate].
  apply FindStringSubmatch_Some in E as (pre & s' & -> & Hm).
  rewrite matchHere_bearer in Hm.
  destruct (GoStrings.CutPrefix s' "Bearer") as [[|w t]|] eqn:Hcut; try discriminate.
  apply CutPrefix_Some in Hcut. subst s'.
  destruct (Regexp.perl_space w) eqn:Hw; [|discriminate].
  destruct (nonEmpty (takeWhile notDollar t)) eqn:Hne; [|discriminate].
  injection Hm as <-. change (Regexp.SubexpIndex bearerRe "key") with 1%Z.
  cbn [slice_index Z.ltb Z.compare Z.to_nat Pos.to_nat Pos.iter_op Nat.add].
  change ([?a; ?b] !! 1) with (Some b).
  intros [= <-].
  assert (Htok : Regexp.consumed t (dropWhile notDollar t) = takeWhile notDollar t).
  { rewrite <- (takeWhile_dropWhile notDollar t) at 1. apply consumed_append. }
  rewrite Htok. exists pre, w, (dropWhile notDollar t).
  rewrite takeWhile_dropWhile. repeat split.
  - exact Hw.
  - apply eqb_nonEmpty. exact Hne.
  - apply takeWhile_allBytes.
  - destruct (dropWhile_stops notDollar t) as [->|(c & r & -> & Hc)];
      [left; reflexivity | right].
    exists r. f_equal. unfold notDollar in Hc.
    apply negb_false_iff, Ascii.eqb_eq in Hc. exact Hc.
Qed.

(** A header value that starts with the pattern: one whitespace byte, then
    bytes up to the end that are no dollar signs. *)
Lemma bearerToken_anchored w tok :
  Regexp.perl_space w = true -> allBytes notDollar tok = true -> tok <> "" ->
  bearerToken ("Bearer" +:+ String w tok) = Some tok.
Proof.
  intros Hw Hall Hne. unfold bearerToken.
  rewrite (FindStringSubmatch_here _ _
             ["Bearer" +:+ String w tok; tok]).
  - reflexivity.
  - rewrite matchHere_bearer, CutPrefix_append, Hw.
    destruct (allBytes_takeWhile _ _ Hall) as [-> ->].
    apply eqb_nonEmpty in Hne. rewrite Hne, !consumed_all. reflexivity.
Qed.

End BearerFacts.

(** ** The handler: how [ServeHTTP] dispatches *)

Section DispatchFacts.

Lemma setReq_req w : setReq (req w) w = w.
Proof. destruct w; reflexivity. Qed.

(** What [ok] does, with the request that goes downstream named. *)
Lemma ok_forwarded ka w key :
  ok ka w key =
    {| rw := fst (next ka (rw w) (forwarded ka (req w) key));
       req := snd (next ka (rw w) (forwarded ka (req w) key));
       stdout := stdout w ++ [InfoKey key (URL (req w))];
       served := served w ++ [forwarded ka (req w) key] |}.
Proof.
  unfold ok, forwarded.
  destruct (nonEmpty (internalForwardHeaderName ka)); cbn;
    match goal with |- context [next ka ?a ?b] => destruct (next ka a b) end;
    reflexivity.
Qed.

Lemma firstMatch_Some ka r m :
  firstMatch ka r = Some m <->
  exists pre post,
    methods = pre ++ m :: post /\
    (forall m', In m' pre -> satisfied ka r m' = false) /\
    satisfied ka r m = true.
Proof.
  unfold firstMatch. generalize methods as l. induction l as [|x l IH].
  - split; [discriminate | intros (pre & post & H & _)].
    destruct pre; discriminate H.
  - cbn [List.find]. destruct (satisfied ka r x) eqn:E.
    + split.
      * intros [= <-]. exists [], l. repeat split; [|exact E]. intros ? [].
      * intros (pre & post & H & Hpre & Hm). destruct pre as [|y pre].
        -- injection H as -> _. reflexivity.
        -- injection H as <- _. rewrite (Hpre x) in E by (left; reflexivity).
           discriminate E.
    + rewrite IH. split.
      * intros (pre & post & -> & Hpre & Hm). exists (x :: pre), post.
        repeat split; [|exact Hm]. intros m' [<-|Hin]; [exact E | auto].
      * intros (pre & post & H & Hpre & Hm). destruct pre as [|y pre].
        -- injection H as -> _. rewrite Hm in E. discriminate E.
        -- injection H as _ ->. exists pre, post. repeat split; [|exact Hm].
           intros m' Hin. apply Hpre. right. exact Hin.
Qed.

Lemma firstMatch_None ka r :
  firstMatch ka r = None <-> forall m, satisfied ka r m = false.
Proof.
  unfold firstMatch, methods. cbn [List.find]. split.
  - intros H m.
    destruct (satisfied ka r ByHeader) eqn:E1; [discriminate|].
    destruct (satisfied ka r ByBearer) eqn:E2; [discriminate|].
    destruct (satisfied ka r ByQuery) eqn:E3; [discriminate|].
    destruct (satisfied ka r ByPath) eqn:E4; [discriminate|].
    destruct m; assumption.
  - intros H. rewrite !H. reflexivity.
Qed.

(** Closes the case of [ServeHTTP_dispatch] in which a block returned. *)
Ltac matched_case :=
  cbn [sanitize extract keptQuery];
  try match goal with
      | |- context [removeHeadersOnSuccess ?ka] =>
          destruct (removeHeadersOnSuccess ka)
      end;
  rewrite ?setReq_req; reflexivity.

(** [ServeHTTP], one case per outcome. *)
Lemma ServeHTTP_dispatch ka w :
  ServeHTTP ka w =
    match firstMatch ka (req w) with
    | Some m => ok ka (setReq (sanitize ka m (req w)) w) (extract ka m (req w))
    | None =>
        if nonEmpty (internalErrorRoute ka) then
          setReq (setRawQuery "" (setPath (internalErrorRoute ka) (req w))) w
        else
          let w1 :=
            call (WriteHeader StatusForbidden)
              (call (HeaderSet "Content-Type"
                       "application/json; charset=utf-8") w) in
          let w2 :=
            call (Write (encodeResponse
                           {| Message := "Invalid or missing API Key";
                              StatusCode := StatusForbidden |})) w1 in
          match writeError (rw w) with
          | Some err => print (SendError err) w2
          | None => w2
          end
    end.
Proof.
  unfold ServeHTTP, firstMatch, methods, satisfied.
  cbn [List.find enabled extract].
  destruct (authenticationHeader ka); cbn [andb];
    [destruct (nonEmpty (contains _ (keys ka) true)); [matched_case|]|];
  (destruct (bearerHeader ka); cbn [andb];
    [destruct (nonEmpty (bearer _ (keys ka))); [matched_case|]|]);
  (destruct (queryParam ka); cbn [andb];
    [destruct (nonEmpty (contains (NetURL.ValuesGet _ _) (keys ka) true));
     [matched_case|]|]);
  (destruct (pathSegment ka); cbn [andb];
    [destruct (nonEmpty (contains _ (keys ka) false)); [matched_case|]|]);
  (destruct (nonEmpty (internalErrorRoute ka)); [reflexivity|];
   unfold Encode; cbn; destruct (writeError (rw w)); reflexivity).
Qed.

(** After a match the request went downstream once; after none, never. *)
Lemma ServeHTTP_served ka w :
  served (ServeHTTP ka w) =
    match firstMatch ka (req w) with
    | Some m =>
        served w ++
          [forwarded ka (sanitize ka m (req w)) (extract ka m (req w))]
    | None => served w
    end.
Proof.
  rewrite ServeHTTP_dispatch. destruct (firstMatch ka (req w)) as [m|].
  - rewrite ok_forwarded. reflexivity.
  - destruct (nonEmpty (internalErrorRoute ka)); [reflexivity|].
    cbn. destruct (writeError (rw w)); reflexivity.
Qed.

(** A match of any method is a non-empty entry of the allow-list, and it
    is what the method read from the request. *)
Lemma extract_member ka m r :
  extract ka m r <> "" ->
  In (extract ka m r) (keys ka) /\ entryMatches ka r m (extract ka m r).
Proof.
  destruct m; cbn [extract entryMatches]; intros H.
  - split; [apply contains_member; exact H|].
    symmetry. apply contains_exact_eq. exact H.
  - rewrite bearer_bearerToken in *.
    destruct (bearerToken _) as [tok|]; [|congruence].
    split; [apply contains_member; exact H|].
    f_equal. symmetry. apply contains_exact_eq. exact H.
  - split; [apply contains_member; exact H|].
    symmetry. apply contains_exact_eq. exact H.
  - split; [apply contains_member; exact H|].
    apply contains_substring_occurs. exact H.
Qed.

End DispatchFacts.

(** ** The claims about the matcher *)

(** C8, as stated, fails: with the empty string in the allow-list before
    any other qualifying member, [contains] returns the empty string, which
    is its encoding of no match, although members of the list, a real key
    among them, are substrings of the candidate. *)
Lemma C8_empty_member_reads_as_none :
  contains "/items" [""; "items"] false = "" /\
  In "items" [""; "items"] /\ occursIn "items" "/items" /\
  ~ (contains "/items" [""; "items"] false = "" <->
     forall a, In a [""; "items"] -> ~ occursIn a "/items").
Proof.
  assert (Hocc : occursIn "items" "/items") by (exists "/", ""; reflexivity).
  split; [reflexivity|]. split; [right; left; reflexivity|].
  split; [exact Hocc|].
  intros [H _]. apply (H eq_refl "items"); [right; left; reflexivity | exact Hocc].
Qed.

(** C8 (amended): for every allow-list [L] and candidate [c], the
    substring policy of [contains] returns the member of [L] that comes
    first in [L]'s order among those occurring in [c] as a contiguous
    substring; a match is a member of [L] that occurs in [c]; the result is
    none (the empty string) when no member occurs in [c], and for an
    allow-list without the empty string only then. *)
Theorem C8_substring_match_first_member (c : string) (L : list string) :
  (forall pre a post,
      L = pre ++ a :: post -> occursIn a c ->
      (forall b, In b pre -> ~ occursIn b c) ->
      contains c L false = a) /\
  (contains c L false <> "" ->
   In (contains c L false) L /\ occursIn (contains c L false) c) /\
  ((forall a, In a L -> ~ occursIn a c) -> contains c L false = "") /\
  (~ In "" L ->
   (contains c L false = "" <-> forall a, In a L -> ~ occursIn a c)).
Proof.
  assert (Hnone : (forall a, In a L -> ~ occursIn a c) -> contains c L false = "").
  { intros H. apply contains_none. intros a Hin _.
    destruct (GoStrings.Contains c a) eqn:E; [|reflexivity].
    apply Contains_spec in E. elim (H a Hin E). }
  assert (Hsome : contains c L false <> "" ->
                  In (contains c L false) L /\ occursIn (contains c L false) c).
  { intros H. split; [apply contains_member; exact H|].
    apply Contains_spec, contains_substring_occurs. exact H. }
  split; [|split; [exact Hsome | split; [exact Hnone|]]].
  - intros pre a post -> Ha Hpre. apply contains_substring_first.
    + intros b Hb. destruct (GoStrings.Contains c b) eqn:E; [|reflexivity].
      apply Contains_spec in E. elim (Hpre b Hb E).
    + apply Contains_spec. exact Ha.
  - intros Hno. split; [|exact Hnone].
    intros Hres a Hin Hocc.
    apply in_split in Hin as (pre & post & ->).
    assert (Hfirst : exists pre' b post',
               pre ++ a :: post = pre' ++ b :: post' /\
               GoStrings.Contains c b = true /\
               forall x, In x pre' -> GoStrings.Contains c x = false).
    { clear Hres Hno Hnone Hsome. induction pre as [|x pre IH].
      - exists [], a, post. repeat split; [apply Contains_spec; exact Hocc|].
        intros ? [].
      - destruct (GoStrings.Contains c x) eqn:E.
        + exists [], x, (pre ++ a :: post). repeat split; [exact E|]. intros ? [].
        + destruct IH as (pre' & b & post' & Heq & Hb & Hpre').
          exists (x :: pre'), b, post'. cbn [app]. rewrite Heq.
          repeat split; [exact Hb|]. intros y [<-|Hy]; [exact E | auto]. }
    destruct Hfirst as (pre' & b & post' & Heq & Hb & Hpre').
    rewrite Heq in Hres, Hno.
    rewrite (contains_substring_first c pre' b post' Hpre' Hb) in Hres.
    subst b. apply Hno. apply in_or_app. right. left. reflexivity.
Qed.

(** C2, as stated, fails: the pattern takes one whitespace byte after
    [Bearer]; a second space is the first byte of the compared token.  The
    token of the pattern also stops before a dollar sign. *)
Lemma C2_two_spaces_do_not_match :
  In "abc123" ["abc123"] /\
  allBytes Regexp.perl_space "  " = true /\
  bearer ("Bearer" +:+ "  " +:+ "abc123") ["abc123"] = "" /\
  bearer ("Bearer" +:+ "  " +:+ "abc123") ["abc123"] <> "abc123" /\
  bearer ("Bearer" +:+ " " +:+ "abc$123") ["abc$123"] = "".
Proof.
  assert (H : bearer ("Bearer" +:+ "  " +:+ "abc123") ["abc123"] = "")
    by (vm_compute; reflexivity).
  split; [left; reflexivity|]. split; [reflexivity|].
  split; [exact H|]. split; [rewrite H; discriminate|].
  vm_compute. reflexivity.
Qed.

(** C2 (amended): for every allow-list and every header value made of
    [Bearer], exactly one whitespace byte and a rest without dollar sign,
    [bearer] compares the whole rest with the allow-list, exactly; so it
    returns the token [t] when the rest is [t] and [t] is in the allow-list,
    and further whitespace is part of what is compared. *)
Theorem C2_bearer_one_separator (L : list string) (w : ascii) (t : string) :
  Regexp.perl_space w = true -> allBytes notDollar t = true ->
  bearer ("Bearer" +:+ String w t) L = contains t L true /\
  (In t L -> bearer ("Bearer" +:+ String w t) L = t).
Proof.
  intros Hw Hall.
  assert (H : bearer ("Bearer" +:+ String w t) L = contains t L true).
  { rewrite bearer_bearerToken. destruct t as [|c t].
    - rewrite contains_empty_candidate.
      destruct (bearerToken ("Bearer" +:+ String w "")) as [tok|] eqn:E;
        [|reflexivity].
      apply bearerToken_Some in E as (pre & w' & post & Heq & _ & Hne & _).
      apply (f_equal String.length) in Heq.
      rewrite !length_append in Heq. cbn [String.length] in Heq.
      rewrite length_append in Heq.
      destruct tok; [now elim Hne | cbn [String.length] in Heq; lia].
    - rewrite bearerToken_anchored by (auto; discriminate). reflexivity. }
  split; [exact H|]. intros Hin. rewrite H. apply contains_exact_In. exact Hin.
Qed.

Lemma C2_bearer_one_separator_witness :
  Regexp.perl_space " "%char = true /\ allBytes notDollar "abc123" = true /\
  bearer "Bearer abc123" ["abc123"] = "abc123".
Proof.
  split; [reflexivity | split; [reflexivity|]].
  apply (C2_bearer_one_separator ["abc123"] " "%char "abc123");
    [reflexivity | reflexivity | left; reflexivity].
Defined.

(** C3, as stated, fails: the pattern is searched for anywhere in the
    header value, so a value of another scheme that carries the pattern
    further on yields a match. *)
Lemma C3_pattern_found_inside_other_scheme :
  ~ bearerShape "Basic Bearer abc123" /\
  bearer "Basic Bearer abc123" ["abc123"] = "abc123".
Proof.
  split; [|vm_compute; reflexivity].
  intros (ws & tok & H & _). discriminate H.
Qed.

(** C3 (amended): for every allow-list, [bearer] returns none whenever the
    pattern ([Bearer], one whitespace byte, one or more bytes other than
    the dollar sign) occurs nowhere in the header value; a match is a
    member of the allow-list; [Basic abc123] and [Bearerabc123] return none
    for every allow-list. *)
Theorem C3_bearer_none_without_pattern :
  (forall h L, ~ bearerPatternOccurs h -> bearer h L = "") /\
  (forall h L, bearer h L <> "" ->
               bearerPatternOccurs h /\ In (bearer h L) L) /\
  (forall L, bearer "Basic abc123" L = "") /\
  (forall L, bearer "Bearerabc123" L = "").
Proof.
  assert (Hmatch : forall h L, bearer h L <> "" ->
                               bearerPatternOccurs h /\ In (bearer h L) L).
  { intros h L. rewrite bearer_bearerToken.
    destruct (bearerToken h) as [tok|] eqn:E; [|congruence].
    intros H. split; [|apply contains_member; exact H].
    apply bearerToken_Some in E as (pre & w & post & Heq & Hw & Hne & Hall & _).
    exists pre, w, tok, post. auto. }
  split; [|split; [exact Hmatch | split]].
  - intros h L Hno. destruct (String.eqb_spec (bearer h L) "") as [E|E];
      [exact E | elim Hno; apply (Hmatch h L E)].
  - intros L. rewrite bearer_bearerToken.
    replace (bearerToken "Basic abc123") with (@None string)
      by (vm_compute; reflexivity). reflexivity.
  - intros L. rewrite bearer_bearerToken.
    replace (bearerToken "Bearerabc123") with (@None string)
      by (vm_compute; reflexivity). reflexivity.
Qed.

(** ** The claims about construction *)

(** C5: [New] returns an error, and no handler, exactly when the allow-list
    is empty or the four location toggles are all false, whatever the other
    settings; with a key and a toggle it returns the handler that holds the
    settings of the configuration. *)
Theorem C5_construction_contract (nxt : Handler) (config : Config)
    (name : string) :
  ((exists err, snd (New nxt config name) = inr err) <->
   Keys config = [] \/
   (AuthenticationHeader config = false /\ BearerHeader config = false /\
    QueryParam config = false /\ PathSegment config = false)) /\
  ((exists ka, snd (New nxt config name) = inl ka) <->
   Keys config <> [] /\
   (AuthenticationHeader config = true \/ BearerHeader config = true \/
    QueryParam config = true \/ PathSegment config = true)) /\
  (forall ka, snd (New nxt config name) = inl ka ->
     next ka = nxt /\ keys ka = Keys config /\
     authenticationHeader ka = AuthenticationHeader config /\
     bearerHeader ka = BearerHeader config /\
     queryParam ka = QueryParam config /\
     pathSegment ka = PathSegment config).
Proof.
  unfold New.
  destruct (Keys config) as [|k ks] eqn:Hk; cbn [length Nat.eqb snd].
  - split; [|split].
    + split; [intros _; left; reflexivity | intros _; eexists; reflexivity].
    + split; [intros [ka H]; discriminate H | intros [H _]; now elim H].
    + intros ka H. discriminate H.
  - destruct (AuthenticationHeader config) eqn:H1,
             (BearerHeader config) eqn:H2,
             (QueryParam config) eqn:H3,
             (PathSegment config) eqn:H4; cbn [negb andb snd];
      (split; [|split]);
      try (intros ka [= <-]; cbn; rewrite ?H1, ?H2, ?H3, ?H4, ?Hk; tauto);
      try (intros ka H; discriminate H);
      (split;
       [ intros [x H]; try discriminate H; intuition (auto; discriminate)
       | intros H; try (eexists; reflexivity);
         exfalso; intuition discriminate ]).
Qed.

(** ** The claims about dispatch *)

(** C1: the four methods are tried in the order header, bearer header,
    query parameter, path segment.  When a method is satisfied and every
    method before it in that order is not (disabled, or enabled and
    unmatched), [ServeHTTP] does what goes with that method and nothing of
    the later ones: it applies the method's mutation, prints the matched
    value and hands the request to the downstream handler once.  In
    particular, with the key header enabled and unmatched and the bearer
    header enabled and matched with [k1], the request goes downstream once,
    with matched value [k1], without the bearer header when
    [removeHeadersOnSuccess] is true. *)
Theorem C1_first_satisfied_method_wins (ka : KeyAuth) (w : World) :
  (forall pre m post,
     methods = pre ++ m :: post ->
     (forall m', In m' pre -> satisfied ka (req w) m' = false) ->
     satisfied ka (req w) m = true ->
     ServeHTTP ka w =
       ok ka (setReq (sanitize ka m (req w)) w) (extract ka m (req w)) /\
     served (ServeHTTP ka w) =
       served w ++
         [forwarded ka (sanitize ka m (req w)) (extract ka m (req w))] /\
     stdout (ServeHTTP ka w) =
       stdout w ++
         [InfoKey (extract ka m (req w)) (URL (sanitize ka m (req w)))] /\
     (rw (ServeHTTP ka w), req (ServeHTTP ka w)) =
       next ka (rw w)
         (forwarded ka (sanitize ka m (req w)) (extract ka m (req w)))) /\
  (authenticationHeader ka = true ->
   contains (NetHTTP.Get (Header (req w)) (authenticationHeaderName ka))
     (keys ka) true = "" ->
   bearerHeader ka = true ->
   bearer (NetHTTP.Get (Header (req w)) (bearerHeaderName ka)) (keys ka)
     = "k1" ->
   served (ServeHTTP ka w) =
     served w ++
       [forwarded ka
          (if removeHeadersOnSuccess ka then
             setHeader (NetHTTP.Del (Header (req w)) (bearerHeaderName ka))
               (req w)
           else req w)
          "k1"] /\
   stdout (ServeHTTP ka w) = stdout w ++ [InfoKey "k1" (URL (req w))]).
Proof.
  assert (General : forall m, firstMatch ka (req w) = Some m ->
            ServeHTTP ka w =
              ok ka (setReq (sanitize ka m (req w)) w) (extract ka m (req w)) /\
            served (ServeHTTP ka w) =
              served w ++
                [forwarded ka (sanitize ka m (req w)) (extract ka m (req w))] /\
            stdout (ServeHTTP ka w) =
              stdout w ++
                [InfoKey (extract ka m (req w)) (URL (sanitize ka m (req w)))] /\
            (rw (ServeHTTP ka w), req (ServeHTTP ka w)) =
              next ka (rw w)
                (forwarded ka (sanitize ka m (req w)) (extract ka m (req w)))).
  { intros m Hfirst.
    assert (Hserve : ServeHTTP ka w =
              ok ka (setReq (sanitize ka m (req w)) w) (extract ka m (req w)))
      by (rewrite ServeHTTP_dispatch, Hfirst; reflexivity).
    split; [exact Hserve|]. rewrite Hserve, ok_forwarded. cbn.
    split; [reflexivity|]. split; [reflexivity|].
    symmetry. apply surjective_pairing. }
  split.
  - intros pre m post Hm Hpre Hsat. apply General.
    apply firstMatch_Some. exists pre, post. auto.
  - intros Hh Hunmatched Hb Hmatched.
    destruct (General ByBearer) as (_ & Hserved & Hout & _).
    + unfold firstMatch, methods, satisfied. cbn [List.find enabled extract].
      rewrite Hh, Hb, Hunmatched, Hmatched. reflexivity.
    + rewrite Hserved, Hout. cbn [extract sanitize]. rewrite Hmatched.
      destruct (removeHeadersOnSuccess ka); split; reflexivity.
Qed.

(** The priority scenario: a wrong key in the key header, a valid bearer
    token [k1]. *)
Lemma C1_first_satisfied_method_wins_witness :
  satisfied (guard "k1" "X-Auth-Key" "" true) bearerRequest ByHeader = false /\
  satisfied (guard "k1" "X-Auth-Key" "" true) bearerRequest ByBearer = true /\
  served (ServeHTTP (guard "k1" "X-Auth-Key" "" true) (arrive bearerRequest)) =
    [{| Header := {[ "X-Api-Key" := ["guess"]; "X-Auth-Key" := ["k1"] ]};
        URL := {| NetURL.Path := "/items"; NetURL.RawQuery := "" |};
        RequestURI := "/items" |}] /\
  stdout (ServeHTTP (guard "k1" "X-Auth-Key" "" true) (arrive bearerRequest)) =
    [InfoKey "k1" {| NetURL.Path := "/items"; NetURL.RawQuery := "" |}].
Proof.
  assert (H1 : satisfied (guard "k1" "X-Auth-Key" "" true) bearerRequest
                 ByHeader = false) by (vm_compute; reflexivity).
  assert (H2 : satisfied (guard "k1" "X-Auth-Key" "" true) bearerRequest
                 ByBearer = true) by (vm_compute; reflexivity).
  destruct (C1_first_satisfied_method_wins
              (guard "k1" "X-Auth-Key" "" true) (arrive bearerRequest))
    as [General _].
  destruct (General [ByHeader] ByBearer [ByQuery; ByPath])
    as (_ & Hserved & Hout & _).
  - reflexivity.
  - intros m' [<-|[]]. exact H1.
  - exact H2.
  - split; [exact H1|]. split; [exact H2|].
    rewrite Hserved, Hout. split; vm_compute; reflexivity.
Defined.

(** C4, as stated, fails: with [removeQueryParamsOnSuccess] false the query
    string is still replaced by the encoding of the parsed parameters,
    which orders them by name. *)
Lemma C4_query_string_reencoded_when_kept :
  firstMatch (guard "k1" "" "" false) queryRequest = Some ByQuery /\
  removeQueryParamsOnSuccess (guard "k1" "" "" false) = false /\
  NetURL.RawQuery (URL queryRequest) = "token=k1&b=2&a=1" /\
  exists r',
    served (ServeHTTP (guard "k1" "" "" false) (arrive queryRequest)) = [r'] /\
    NetURL.RawQuery (URL r') = "a=1&b=2&token=k1" /\
    NetURL.RawQuery (URL r') <> NetURL.RawQuery (URL queryRequest).
Proof.
  split; [vm_compute; reflexivity|]. split; [reflexivity|].
  split; [reflexivity|].
  rewrite ServeHTTP_served.
  replace (firstMatch (guard "k1" "" "" false) (req (arrive queryRequest)))
    with (Some ByQuery) by (vm_compute; reflexivity).
  eexists. split; [reflexivity|].
  split; [vm_compute; reflexivity | vm_compute; discriminate].
Qed.

(** C4 (amended): when the query-parameter method is the first to match,
    the request goes downstream with its query string replaced by the
    encoding of the parsed parameters, from which the named parameter is
    deleted when [removeQueryParamsOnSuccess] is true and only then; with
    the flag false every parsed parameter is kept, and the query string is
    encoded again all the same. *)
Theorem C4_query_parameter_removal (ka : KeyAuth) (w : World) :
  firstMatch ka (req w) = Some ByQuery ->
  exists r',
    served (ServeHTTP ka w) = served w ++ [r'] /\
    NetURL.Path (URL r') = NetURL.Path (URL (req w)) /\
    NetURL.RawQuery (URL r') = NetURL.Encode (keptQuery ka (req w)) /\
    (removeQueryParamsOnSuccess ka = true ->
     keptQuery ka (req w) =
       delete (queryParamName ka) (NetURL.Query (URL (req w))) /\
     keptQuery ka (req w) !! queryParamName ka = None) /\
    (removeQueryParamsOnSuccess ka = false ->
     keptQuery ka (req w) = NetURL.Query (URL (req w))).
Proof.
  intros Hfirst. rewrite ServeHTTP_served, Hfirst.
  eexists. split; [reflexivity|].
  unfold forwarded, keptQuery, NetURL.ValuesDel.
  destruct (nonEmpty (internalForwardHeaderName ka)); cbn;
    (split; [reflexivity|]; split; [reflexivity|]);
    (split; intros ->; [split; [reflexivity | apply lookup_delete_eq]
                       | reflexivity]).
Qed.

Lemma C4_query_parameter_removal_witness :
  firstMatch (guard "k1" "" "" true) (req (arrive queryRequest)) = Some ByQuery /\
  exists r',
    served (ServeHTTP (guard "k1" "" "" true) (arrive queryRequest)) = [r'] /\
    NetURL.RawQuery (URL r') = "a=1&b=2".
Proof.
  assert (H : firstMatch (guard "k1" "" "" true) (req (arrive queryRequest))
              = Some ByQuery) by (vm_compute; reflexivity).
  split; [exact H|].
  destruct (C4_query_parameter_removal
              (guard "k1" "" "" true) (arrive queryRequest) H)
    as (r' & Hserved & _ & Hquery & _).
  exists r'. split; [exact Hserved|]. rewrite Hquery. vm_compute. reflexivity.
Defined.

(** ** The claims about rejection *)

(** C6, as stated, fails: the body written is the JSON document followed
    by the newline that an encoder ends every value with, not the document
    alone. *)
Lemma C6_body_ends_with_newline :
  firstMatch (guard "k1" "" "" true) anonymousRequest = None /\
  internalErrorRoute (guard "k1" "" "" true) = "" /\
  calls (rw (ServeHTTP (guard "k1" "" "" true) (arrive anonymousRequest))) =
    rejection (forbiddenJSON +:+ JSON.newline) /\
  calls (rw (ServeHTTP (guard "k1" "" "" true) (arrive anonymousRequest))) <>
    rejection forbiddenJSON.
Proof.
  split; [vm_compute; reflexivity|]. split; [reflexivity|].
  split; [vm_compute; reflexivity | vm_compute; discriminate].
Qed.

(** C6 (amended): when no enabled method matches and [internalErrorRoute]
    is empty, [ServeHTTP] sets the header [Content-Type] to
    [application/json; charset=utf-8], writes the status 403 and writes as
    body the document [{"message":"Invalid or missing API Key",
    "status_code":403}] followed by one newline; the downstream handler is
    not invoked and the request is left as it was. *)
Theorem C6_rejection_response (ka : KeyAuth) (w : World) :
  firstMatch ka (req w) = None ->
  internalErrorRoute ka = "" ->
  calls (rw (ServeHTTP ka w)) =
    calls (rw w) ++ rejection (forbiddenJSON +:+ JSON.newline) /\
  served (ServeHTTP ka w) = served w /\
  req (ServeHTTP ka w) = req w.
Proof.
  intros Hnone Hroute. rewrite ServeHTTP_dispatch, Hnone, Hroute.
  change (nonEmpty "") with false. cbv iota zeta.
  change (encodeResponse _) with (forbiddenJSON +:+ JSON.newline).
  destruct (writeError (rw w)); cbn; rewrite <- !app_assoc; repeat split.
Qed.

Lemma C6_rejection_response_witness :
  firstMatch (guard "k1" "" "" true) (req (arrive anonymousRequest)) = None /\
  internalErrorRoute (guard "k1" "" "" true) = "" /\
  calls (rw (ServeHTTP (guard "k1" "" "" true) (arrive anonymousRequest))) =
    [HeaderSet "Content-Type" "application/json; charset=utf-8";
     WriteHeader 403;
     Write (forbiddenJSON +:+ JSON.newline)] /\
  served (ServeHTTP (guard "k1" "" "" true) (arrive anonymousRequest)) = [].
Proof.
  assert (H : firstMatch (guard "k1" "" "" true) (req (arrive anonymousRequest))
              = None) by (vm_compute; reflexivity).
  split; [exact H|]. split; [reflexivity|].
  destruct (C6_rejection_response
              (guard "k1" "" "" true) (arrive anonymousRequest) H eq_refl)
    as (Hcalls & Hserved & _).
  rewrite Hcalls, Hserved. split; reflexivity.
Defined.

(** C7: when no enabled method matches and [internalErrorRoute] is not
    empty, [ServeHTTP] replaces the path of the request by
    [internalErrorRoute] and its query string by the empty string, makes
    no call on the response writer and does not invoke the downstream
    handler. *)
Theorem C7_error_route_override (ka : KeyAuth) (w : World) :
  firstMatch ka (req w) = None ->
  internalErrorRoute ka <> "" ->
  NetURL.Path (URL (req (ServeHTTP ka w))) = internalErrorRoute ka /\
  NetURL.RawQuery (URL (req (ServeHTTP ka w))) = "" /\
  Header (req (ServeHTTP ka w)) = Header (req w) /\
  rw (ServeHTTP ka w) = rw w /\
  served (ServeHTTP ka w) = served w /\
  stdout (ServeHTTP ka w) = stdout w.
Proof.
  intros Hnone Hroute. rewrite ServeHTTP_dispatch, Hnone.
  apply eqb_nonEmpty in Hroute. rewrite Hroute. cbn. repeat split.
Qed.

Lemma C7_error_route_override_witness :
  firstMatch (guard "k1" "" "/denied" true) (req (arrive anonymousRequest))
    = None /\
  internalErrorRoute (guard "k1" "" "/denied" true) <> "" /\
  URL (req (ServeHTTP (guard "k1" "" "/denied" true) (arrive anonymousRequest)))
    = {| NetURL.Path := "/denied"; NetURL.RawQuery := "" |} /\
  calls (rw (ServeHTTP (guard "k1" "" "/denied" true) (arrive anonymousRequest)))
    = [] /\
  served (ServeHTTP (guard "k1" "" "/denied" true) (arrive anonymousRequest))
    = [].
Proof.
  assert (H : firstMatch (guard "k1" "" "/denied" true)
                (req (arrive anonymousRequest)) = None)
    by (vm_compute; reflexivity).
  assert (Hr : internalErrorRoute (guard "k1" "" "/denied" true) <> "")
    by discriminate.
  split; [exact H|]. split; [exact Hr|].
  destruct (C7_error_route_override
              (guard "k1" "" "/denied" true) (arrive anonymousRequest) H Hr)
    as (Hpath & Hquery & _ & Hrw & Hserved & _).
  rewrite Hrw, Hserved.
  destruct (URL (req (ServeHTTP (guard "k1" "" "/denied" true)
                        (arrive anonymousRequest)))) as [p q].
  cbn in Hpath, Hquery. rewrite Hpath, Hquery. repeat split.
Defined.

(** ** The claims about what is forwarded *)

Section HeaderFacts.

Lemma values_Add (h : NetHTTP.Header) name value :
  NetHTTP.values (NetHTTP.Add h name value)
    (NetHTTP.CanonicalMIMEHeaderKey name) =
  NetHTTP.values h (NetHTTP.CanonicalMIMEHeaderKey name) ++ [value].
Proof. unfold NetHTTP.Add, NetHTTP.values. rewrite lookup_insert_eq. reflexivity. Qed.

Lemma lookup_Add_other (h : NetHTTP.Header) name value k :
  k <> NetHTTP.CanonicalMIMEHeaderKey name ->
  NetHTTP.Add h name value !! k = h !! k.
Proof. intros Hk. unfold NetHTTP.Add. apply lookup_insert_ne. congruence. Qed.

Lemma Get_absent (h : NetHTTP.Header) name :
  h !! NetHTTP.CanonicalMIMEHeaderKey name = None -> NetHTTP.Get h name = "".
Proof. intros H. unfold NetHTTP.Get, NetHTTP.values. rewrite H. reflexivity. Qed.

End HeaderFacts.

(** C9: when a method matches, its result [v] is a non-empty entry of the
    allow-list (under the path-segment policy an entry that occurs in the
    path, not the path), and the request that goes downstream carries,
    when [internalForwardHeaderName] is not empty, the value [v] added
    under that name on top of the headers left by the method's deletions,
    every other header being as the deletions left it; when the name is
    empty the headers are as the deletions left them. *)
Theorem C9_forwarding_header (ka : KeyAuth) (w : World) (m : Method) :
  firstMatch ka (req w) = Some m ->
  exists r',
    served (ServeHTTP ka w) = served w ++ [r'] /\
    extract ka m (req w) <> "" /\
    In (extract ka m (req w)) (keys ka) /\
    entryMatches ka (req w) m (extract ka m (req w)) /\
    (internalForwardHeaderName ka <> "" ->
     Header r' =
       NetHTTP.Add (Header (sanitize ka m (req w)))
         (internalForwardHeaderName ka) (extract ka m (req w)) /\
     In (extract ka m (req w))
        (NetHTTP.values (Header r')
           (NetHTTP.CanonicalMIMEHeaderKey (internalForwardHeaderName ka))) /\
     forall k,
       k <> NetHTTP.CanonicalMIMEHeaderKey (internalForwardHeaderName ka) ->
       Header r' !! k = Header (sanitize ka m (req w)) !! k) /\
    (internalForwardHeaderName ka = "" ->
     Header r' = Header (sanitize ka m (req w))).
Proof.
  intros Hfirst. rewrite ServeHTTP_served, Hfirst.
  eexists. split; [reflexivity|].
  assert (Hne : extract ka m (req w) <> "").
  { apply firstMatch_Some in Hfirst as (_ & _ & _ & _ & Hsat).
    unfold satisfied in Hsat. apply andb_true_iff in Hsat as [_ Hsat].
    apply eqb_nonEmpty. exact Hsat. }
  split; [exact Hne|].
  destruct (extract_member ka m (req w) Hne) as [Hin Hentry].
  split; [exact Hin|]. split; [exact Hentry|].
  unfold forwarded. split.
  - intros Hname. apply eqb_nonEmpty in Hname. rewrite Hname. cbn.
    split; [reflexivity|]. split.
    + rewrite values_Add. apply in_or_app. right. left. reflexivity.
    + intros k Hk. apply lookup_Add_other. exact Hk.
  - intros ->. reflexivity.
Qed.

(** The key inside a longer path segment: what is forwarded is the entry of
    the allow-list. *)
Lemma C9_forwarding_header_witness :
  firstMatch (guard "k1" "X-Auth-Key" "" true) (req (arrive pathRequest))
    = Some ByPath /\
  NetURL.Path (URL pathRequest) = "/v1/xk1y/items" /\
  exists r',
    served (ServeHTTP (guard "k1" "X-Auth-Key" "" true) (arrive pathRequest))
      = [r'] /\
    Header r' = {[ "X-Auth-Key" := ["k1"] ]}.
Proof.
  assert (H : firstMatch (guard "k1" "X-Auth-Key" "" true)
                (req (arrive pathRequest)) = Some ByPath)
    by (vm_compute; reflexivity).
  split; [exact H|]. split; [reflexivity|].
  destruct (C9_forwarding_header
              (guard "k1" "X-Auth-Key" "" true) (arrive pathRequest) ByPath H)
    as (r' & Hserved & _ & _ & _ & Hadd & _).
  exists r'. split; [exact Hserved|].
  destruct Hadd as (-> & _); [discriminate|]. vm_compute. reflexivity.
Defined.

(** C10: the empty string stands for no match, so an entry of the
    allow-list that is the empty string never authenticates: when every
    entry that an enabled method could match is the empty string, no
    method is satisfied and the request does not go downstream.  A header
    or parameter that is absent reads as the empty string and matches
    nothing, whatever the allow-list; the empty entry occurs in every path
    and, first in the allow-list, makes the path-segment method find no
    match. *)
Theorem C10_empty_entry_never_authenticates (ka : KeyAuth) (w : World) :
  (forall m a, enabled ka m = true -> In a (keys ka) ->
               entryMatches ka (req w) m a -> a = "") ->
  firstMatch ka (req w) = None /\
  served (ServeHTTP ka w) = served w /\
  (forall (h : NetHTTP.Header) name L,
     h !! NetHTTP.CanonicalMIMEHeaderKey name = None ->
     NetHTTP.Get h name = "" /\
     contains (NetHTTP.Get h name) L true = "" /\
     bearer (NetHTTP.Get h name) L = "") /\
  (forall (v : NetURL.Values) name L,
     v !! name = None ->
     NetURL.ValuesGet v name = "" /\
     contains (NetURL.ValuesGet v name) L true = "") /\
  (forall p L, GoStrings.Contains p "" = true /\
               contains p ("" :: L) false = "").
Proof.
  intros Hempty.
  assert (Hnone : firstMatch ka (req w) = None).
  { apply firstMatch_None. intros m. unfold satisfied.
    destruct (enabled ka m) eqn:Hen; [|reflexivity]. cbn [andb].
    apply nonEmpty_false.
    destruct (String.eqb_spec (extract ka m (req w)) "") as [E|E]; [exact E|].
    destruct (extract_member ka m (req w) E) as [Hin Hentry].
    elim E. exact (Hempty m _ Hen Hin Hentry). }
  split; [exact Hnone|]. split; [|split; [|split]].
  - rewrite ServeHTTP_served, Hnone. reflexivity.
  - intros h name L Habsent. rewrite (Get_absent h name Habsent).
    split; [reflexivity|]. split; [apply contains_empty_candidate|].
    rewrite bearer_bearerToken. reflexivity.
  - intros v name L Habsent. unfold NetURL.ValuesGet, NetHTTP.values.
    rewrite Habsent. split; [reflexivity | apply contains_empty_candidate].
  - intros p L. split; [apply Contains_empty|].
    cbn [contains]. rewrite Contains_empty. reflexivity.
Qed.

(** An allow-list that holds the empty string only, every method enabled:
    a request whose header and parameter are absent is rejected. *)
Lemma C10_empty_entry_never_authenticates_witness :
  (forall m a, enabled (guard "" "" "" true) m = true ->
               In a (keys (guard "" "" "" true)) ->
               entryMatches (guard "" "" "" true) (req (arrive pathRequest)) m a ->
               a = "") /\
  GoStrings.Contains (NetURL.Path (URL pathRequest)) "" = true /\
  served (ServeHTTP (guard "" "" "" true) (arrive pathRequest)) = [] /\
  calls (rw (ServeHTTP (guard "" "" "" true) (arrive pathRequest))) =
    rejection (forbiddenJSON +:+ JSON.newline).
Proof.
  assert (H : forall m a, enabled (guard "" "" "" true) m = true ->
               In a (keys (guard "" "" "" true)) ->
               entryMatches (guard "" "" "" true) (req (arrive pathRequest)) m a ->
               a = "").
  { intros m a _ [<-|[]] _. reflexivity. }
  split; [exact H|]. split; [reflexivity|].
  destruct (C10_empty_entry_never_authenticates
              (guard "" "" "" true) (arrive pathRequest) H)
    as (_ & Hserved & _).
  split; [exact Hserved | vm_compute; reflexivity].
Defined.

(** * Further properties of the plugin *)

(** ** The matcher *)

(** X1: under the exact policy [contains] returns the candidate itself when
    it is one of the valid keys and the empty string otherwise, so the
    result depends on which keys are valid only, not on their order or on
    repetitions; the empty candidate gives the empty string even when the
    empty string is a valid key. *)
Theorem X1_exact_match_is_membership (c : string) (L : list string) :
  (In c L -> contains c L true = c) /\
  (~ In c L -> contains c L true = "") /\
  (forall L', (forall a, In a L <-> In a L') ->
              contains c L true = contains c L' true) /\
  contains "" L true = "".
Proof.
  assert (Hout : forall l, ~ In c l -> contains c l true = "").
  { intros l Hno. apply contains_none. intros a Hin _ ->. exact (Hno Hin). }
  split; [apply contains_exact_In|]. split; [apply Hout|].
  split; [|apply contains_empty_candidate].
  intros L' Hsame. destruct (in_dec string_dec c L) as [Hin|Hno].
  - rewrite (contains_exact_In c L Hin).
    rewrite (contains_exact_In c L') by (apply Hsame; exact Hin). reflexivity.
  - rewrite (Hout L Hno). rewrite Hout; [reflexivity|].
    intros Hin'. apply Hno, Hsame. exact Hin'.
Qed.

(** X2: an empty string among the valid keys hides every key after it from
    the substring policy, for every candidate: the keys after it might as
    well not be there.  The exact policy does not see the empty key. *)
Theorem X2_empty_key_hides_later_keys (c : string) (L1 L2 : list string) :
  contains c (L1 ++ "" :: L2) false = contains c L1 false /\
  contains c (L1 ++ "" :: L2) true = contains c (L1 ++ L2) true.
Proof.
  induction L1 as [|a L1 [IHs IHe]]; cbn [app contains].
  - rewrite Contains_empty. split; [reflexivity|].
    destruct (String.eqb_spec "" c) as [<-|]; [|reflexivity].
    symmetry. apply contains_empty_candidate.
  - rewrite IHs, IHe. split; reflexivity.
Qed.

(** X3: what [bearer] returns never holds a dollar sign, whatever the
    header value and the valid keys: a valid key with a dollar sign in it
    cannot be presented as a bearer token. *)
Theorem X3_bearer_match_has_no_dollar (h : string) (L : list string) :
  allBytes notDollar (bearer h L) = true /\
  (forall k, In k L -> allBytes notDollar k = false -> bearer h L <> k).
Proof.
  assert (H : allBytes notDollar (bearer h L) = true).
  { rewrite bearer_bearerToken.
    destruct (bearerToken h) as [tok|] eqn:E; [|reflexivity].
    destruct (String.eqb_spec (contains tok L true) "") as [->|Hne];
      [reflexivity|].
    rewrite (contains_exact_eq _ _ Hne).
    apply bearerToken_Some in E as (_ & _ & _ & _ & _ & _ & Hall & _).
    exact Hall. }
  split; [exact H|]. intros k _ Hk Heq. rewrite Heq, Hk in H. discriminate H.
Qed.

(** X4: whenever the pattern of [bearer] matches, the match holds the whole
    match and the group [key], the index of the group is in range, and the
    group is not empty: the indexing in [bearer] cannot fail. *)
Theorem X4_bearer_group_index_in_range (h : string) (m : list string) :
  Regexp.FindStringSubmatch bearerRe h = Some m ->
  exists whole tok,
    m = [whole; tok] /\ tok <> "" /\
    Regexp.SubexpIndex bearerRe "key" = 1%Z /\
    slice_index m (Regexp.SubexpIndex bearerRe "key") = Some tok.
Proof.
  intros E. apply FindStringSubmatch_Some in E as (pre & s' & -> & Hm).
  rewrite matchHere_bearer in Hm.
  destruct (GoStrings.CutPrefix s' "Bearer") as [[|w t]|]; try discriminate.
  destruct (Regexp.perl_space w); [|discriminate].
  destruct (nonEmpty (takeWhile notDollar t)) eqn:Hne; [|discriminate].
  injection Hm as <-. eexists _, _. split; [reflexivity|].
  split; [|split; reflexivity].
  rewrite <- (takeWhile_dropWhile notDollar t) at 1. rewrite consumed_append.
  apply eqb_nonEmpty. exact Hne.
Qed.

Lemma X4_bearer_group_index_in_range_witness :
  Regexp.FindStringSubmatch bearerRe "Bearer k1" = Some ["Bearer k1"; "k1"] /\
  slice_index ["Bearer k1"; "k1"] (Regexp.SubexpIndex bearerRe "key")
    = Some "k1".
Proof.
  assert (E : Regexp.FindStringSubmatch bearerRe "Bearer k1"
              = Some ["Bearer k1"; "k1"]) by (vm_compute; reflexivity).
  split; [exact E|].
  destruct (X4_bearer_group_index_in_range _ _ E)
    as (whole & tok & Hm & _ & _ & Hidx).
  injection Hm as _ <-. exact Hidx.
Defined.

(** ** The decision of [ServeHTTP] *)

Section DecisionFacts.

Lemma contains_substring_found a c L :
  In a L -> GoStrings.Contains c a = true -> In (contains c L false) L.
Proof.
  induction L as [|b L IH]; cbn [contains In]; [tauto|].
  intros Hin Ha. destruct (GoStrings.Contains c b) eqn:Eb; [left; reflexivity|].
  right. apply IH; [|exact Ha]. destruct Hin as [->|Hin]; [congruence | exact Hin].
Qed.

Lemma snoc_neq {A : Type} (l : list A) (x : A) : l ++ [x] <> l.
Proof.
  intros H. apply (f_equal (@length A)) in H.
  rewrite length_app in H. cbn in H. lia.
Qed.

(** A satisfied method read a non-empty valid key from the request. *)
Lemma satisfied_entry ka r m :
  satisfied ka r m = true ->
  enabled ka m = true /\ extract ka m r <> "" /\
  In (extract ka m r) (keys ka) /\ entryMatches ka r m (extract ka m r).
Proof.
  unfold satisfied. intros H. apply andb_true_iff in H as [Hen Hne].
  apply eqb_nonEmpty in Hne. destruct (extract_member ka m r Hne). auto.
Qed.

(** Without the empty string among the keys, a valid key that an enabled
    method reads from the request satisfies the method. *)
Lemma entry_satisfied ka r m a :
  ~ In "" (keys ka) -> enabled ka m = true -> In a (keys ka) ->
  entryMatches ka r m a -> satisfied ka r m = true.
Proof.
  intros Hno Hen Hin Hentry. unfold satisfied. rewrite Hen. cbn [andb].
  apply eqb_nonEmpty.
  assert (Ha : a <> "") by (intros ->; exact (Hno Hin)).
  destruct m; cbn [extract entryMatches] in *.
  - rewrite Hentry, (contains_exact_In a _ Hin). exact Ha.
  - rewrite bearer_bearerToken, Hentry, (contains_exact_In a _ Hin). exact Ha.
  - rewrite Hentry, (contains_exact_In a _ Hin). exact Ha.
  - intros E. apply Hno. rewrite <- E.
    apply (contains_substring_found a); assumption.
Qed.

(** When every valid key that an enabled method could read from the request
    is the empty string, no method is satisfied. *)
Lemma no_entry_no_match ka r :
  (forall m a, enabled ka m = true -> In a (keys ka) ->
               entryMatches ka r m a -> a = "") ->
  firstMatch ka r = None.
Proof.
  intros Hempty. apply firstMatch_None. intros m.
  destruct (satisfied ka r m) eqn:E; [|reflexivity].
  apply satisfied_entry in E as (Hen & Hne & Hin & Hentry).
  elim Hne. exact (Hempty m _ Hen Hin Hentry).
Qed.

Lemma firstMatch_satisfied ka r m :
  firstMatch ka r = Some m -> satisfied ka r m = true.
Proof. intros H. apply firstMatch_Some in H as (_ & _ & _ & _ & H). exact H. Qed.

Lemma satisfied_firstMatch ka r m :
  satisfied ka r m = true -> exists m', firstMatch ka r = Some m'.
Proof.
  intros H. destruct (firstMatch ka r) as [m'|] eqn:E; [exists m'; reflexivity|].
  rewrite (proj1 (firstMatch_None ka r) E m) in H. discriminate H.
Qed.

End DecisionFacts.

(** X5: with an allow-list that does not hold the empty string, a request
    goes downstream, once, exactly when some enabled method reads a valid
    key from it: the key header or the query parameter is a valid key, the
    token of the bearer header is a valid key, or a valid key occurs in the
    path; otherwise it does not go downstream at all. *)
Theorem X5_forwarded_iff_valid_key_presented (ka : KeyAuth) (w : World) :
  ~ In "" (keys ka) ->
  ((exists r', served (ServeHTTP ka w) = served w ++ [r']) <->
   (exists m a, enabled ka m = true /\ In a (keys ka) /\
                entryMatches ka (req w) m a)) /\
  (served (ServeHTTP ka w) = served w <->
   ~ (exists m a, enabled ka m = true /\ In a (keys ka) /\
                  entryMatches ka (req w) m a)).
Proof.
  intros Hno. rewrite ServeHTTP_served.
  destruct (firstMatch ka (req w)) as [m|] eqn:E.
  - apply firstMatch_satisfied, satisfied_entry in E as (Hen & _ & Hin & Hentry).
    assert (Hex : exists m a, enabled ka m = true /\ In a (keys ka) /\
                              entryMatches ka (req w) m a) by eauto.
    split; split.
    + intros _. exact Hex.
    + intros _. eexists. reflexivity.
    + intros H. elim (snoc_neq _ _ H).
    + intros H. elim (H Hex).
  - assert (Hnex : ~ exists m a, enabled ka m = true /\ In a (keys ka) /\
                                 entryMatches ka (req w) m a).
    { intros (m & a & Hen & Hin & Hentry).
      pose proof (entry_satisfied ka (req w) m a Hno Hen Hin Hentry) as Hsat.
      rewrite (proj1 (firstMatch_None ka (req w)) E m) in Hsat.
      discriminate Hsat. }
    split; split.
    + intros [r' H]. symmetry in H. elim (snoc_neq _ _ H).
    + intros H. elim (Hnex H).
    + intros _. exact Hnex.
    + intros _. reflexivity.
Qed.

Lemma X5_forwarded_iff_valid_key_presented_witness :
  ~ In "" (keys (guard "k1" "" "" true)) /\
  (exists r',
     served (ServeHTTP (guard "k1" "" "" true) (arrive pathRequest)) = [r']) /\
  served (ServeHTTP (guard "k1" "" "" true) (arrive anonymousRequest)) = [].
Proof.
  assert (Hno : ~ In "" (keys (guard "k1" "" "" true)))
    by (intros [H|[]]; discriminate H).
  split; [exact Hno|]. split.
  - apply (X5_forwarded_iff_valid_key_presented
             (guard "k1" "" "" true) (arrive pathRequest) Hno).
    exists ByPath, "k1". split; [reflexivity|]. split; [left; reflexivity|].
    vm_compute. reflexivity.
  - apply (X5_forwarded_iff_valid_key_presented
             (guard "k1" "" "" true) (arrive anonymousRequest) Hno).
    intros (m & a & _ & [<-|[]] & Hentry).
    destruct m; vm_compute in Hentry; discriminate Hentry.
Defined.

(** ** What a match changes in the request *)

Section MutationFacts.

Lemma forwarded_URL ka r key : URL (forwarded ka r key) = URL r.
Proof. unfold forwarded. destruct (nonEmpty (internalForwardHeaderName ka)); reflexivity. Qed.

Lemma forwarded_Header ka r key :
  Header (forwarded ka r key) =
    match forwardKey ka with
    | Some _ => NetHTTP.Add (Header r) (internalForwardHeaderName ka) key
    | None => Header r
    end.
Proof.
  unfold forwarded, forwardKey.
  destruct (nonEmpty (internalForwardHeaderName ka)); reflexivity.
Qed.

Lemma forwarded_RequestURI ka r key :
  RequestURI (forwarded ka r key) = NetURL.RequestURI (URL (forwarded ka r key)).
Proof. unfold forwarded. destruct (nonEmpty (internalForwardHeaderName ka)); reflexivity. Qed.

Lemma sanitize_Path ka m r :
  NetURL.Path (URL (sanitize ka m r)) = NetURL.Path (URL r).
Proof. destruct m; cbn [sanitize]; try destruct (removeHeadersOnSuccess ka); reflexivity. Qed.

Lemma sanitize_URL ka m r : m <> ByQuery -> URL (sanitize ka m r) = URL r.
Proof.
  intros Hm. destruct m; cbn [sanitize];
    try destruct (removeHeadersOnSuccess ka); try reflexivity.
  all: now elim Hm.
Qed.

(** The headers after the deletion that goes with a method. *)
Lemma sanitize_Header ka m r :
  Header (sanitize ka m r) =
    match credentialHeader ka m with
    | Some name =>
        if removeHeadersOnSuccess ka then NetHTTP.Del (Header r) name
        else Header r
    | None => Header r
    end.
Proof.
  destruct m; cbn [sanitize credentialHeader];
    try destruct (removeHeadersOnSuccess ka); reflexivity.
Qed.

End MutationFacts.

(** X6: a match leaves the rest of the request alone.  The request that
    goes downstream has the path of the request that came in; unless the
    query-parameter method matched it has the same query string too, even
    when the query string holds a valid key; and every header is as it came
    in, apart from the forwarding header and, when
    [removeHeadersOnSuccess] is set, the header that the matching method
    read the credential from. *)
Theorem X6_match_leaves_the_rest_unchanged (ka : KeyAuth) (w : World)
    (m : Method) :
  firstMatch ka (req w) = Some m ->
  exists r',
    served (ServeHTTP ka w) = served w ++ [r'] /\
    NetURL.Path (URL r') = NetURL.Path (URL (req w)) /\
    (m <> ByQuery -> URL r' = URL (req w)) /\
    (forall k,
       forwardKey ka <> Some k ->
       (forall name, removeHeadersOnSuccess ka = true ->
                     credentialHeader ka m = Some name ->
                     k <> NetHTTP.CanonicalMIMEHeaderKey name) ->
       Header r' !! k = Header (req w) !! k).
Proof.
  intros Hfirst. rewrite ServeHTTP_served, Hfirst. eexists.
  split; [reflexivity|]. rewrite forwarded_URL, forwarded_Header.
  split; [apply sanitize_Path|]. split; [apply sanitize_URL|].
  intros k Hfwd Hcred.
  assert (Hsan : Header (sanitize ka m (req w)) !! k = Header (req w) !! k).
  { rewrite sanitize_Header.
    destruct (credentialHeader ka m) as [name|]; [|reflexivity].
    destruct (removeHeadersOnSuccess ka); [|reflexivity].
    unfold NetHTTP.Del. apply lookup_delete_ne.
    intros E. apply (Hcred name eq_refl eq_refl). symmetry. exact E. }
  unfold forwardKey in *.
  destruct (nonEmpty (internalForwardHeaderName ka)); [|exact Hsan].
  rewrite lookup_Add_other; [exact Hsan | congruence].
Qed.

(** The key header matches; the same key in the query string goes
    downstream with the request. *)
Lemma X6_match_leaves_the_rest_unchanged_witness :
  firstMatch (guard "k1" "" "" true) (req (arrive headerRequest))
    = Some ByHeader /\
  exists r',
    served (ServeHTTP (guard "k1" "" "" true) (arrive headerRequest)) = [r'] /\
    URL r' = {| NetURL.Path := "/items"; NetURL.RawQuery := "token=k1" |} /\
    Header r' !! "Accept" = Some ["text/html"].
Proof.
  assert (H : firstMatch (guard "k1" "" "" true) (req (arrive headerRequest))
              = Some ByHeader) by (vm_compute; reflexivity).
  split; [exact H|].
  destruct (X6_match_leaves_the_rest_unchanged
              (guard "k1" "" "" true) (arrive headerRequest) ByHeader H)
    as (r' & Hserved & _ & Hurl & Hheader).
  exists r'. split; [exact Hserved|]. split.
  - rewrite Hurl by discriminate. reflexivity.
  - rewrite Hheader; [reflexivity | discriminate |].
    intros name _ [= <-]. vm_compute. discriminate.
Defined.

(** X7: with [removeHeadersOnSuccess] set, the header that the matching
    method read the credential from does not go downstream: it is absent
    from the forwarded request, unless the forwarding header has the same
    canonical name, in which case it holds the matched key and nothing
    else. *)
Theorem X7_credential_header_does_not_go_downstream (ka : KeyAuth) (w : World)
    (m : Method) (name : string) :
  firstMatch ka (req w) = Some m ->
  removeHeadersOnSuccess ka = true ->
  credentialHeader ka m = Some name ->
  exists r',
    served (ServeHTTP ka w) = served w ++ [r'] /\
    (forwardKey ka <> Some (NetHTTP.CanonicalMIMEHeaderKey name) ->
     Header r' !! NetHTTP.CanonicalMIMEHeaderKey name = None /\
     NetHTTP.Get (Header r') name = "") /\
    (forwardKey ka = Some (NetHTTP.CanonicalMIMEHeaderKey name) ->
     Header r' !! NetHTTP.CanonicalMIMEHeaderKey name
       = Some [extract ka m (req w)]).
Proof.
  intros Hfirst Hrem Hcred. rewrite ServeHTTP_served, Hfirst. eexists.
  split; [reflexivity|].
  rewrite forwarded_Header, sanitize_Header, Hcred, Hrem.
  unfold forwardKey. destruct (nonEmpty (internalForwardHeaderName ka)).
  - split.
    + intros Hne.
      assert (Habsent :
        NetHTTP.Add (NetHTTP.Del (Header (req w)) name)
          (internalForwardHeaderName ka) (extract ka m (req w))
          !! NetHTTP.CanonicalMIMEHeaderKey name = None).
      { rewrite lookup_Add_other by congruence. apply lookup_delete_eq. }
      split; [exact Habsent | apply Get_absent; exact Habsent].
    + intros [= E]. unfold NetHTTP.Add, NetHTTP.Del, NetHTTP.values.
      rewrite E, lookup_insert_eq, lookup_delete_eq. reflexivity.
  - split; [|discriminate]. intros _.
    assert (Habsent : NetHTTP.Del (Header (req w)) name
                        !! NetHTTP.CanonicalMIMEHeaderKey name = None)
      by apply lookup_delete_eq.
    split; [exact Habsent | apply Get_absent; exact Habsent].
Qed.

Lemma X7_credential_header_does_not_go_downstream_witness :
  firstMatch (guard "k1" "X-Auth-Key" "" true) (req (arrive bearerRequest))
    = Some ByBearer /\
  NetHTTP.Get (Header bearerRequest) "Authorization" = "Bearer k1" /\
  exists r',
    served (ServeHTTP (guard "k1" "X-Auth-Key" "" true) (arrive bearerRequest))
      = [r'] /\
    NetHTTP.Get (Header r') "Authorization" = "".
Proof.
  assert (H : firstMatch (guard "k1" "X-Auth-Key" "" true)
                (req (arrive bearerRequest)) = Some ByBearer)
    by (vm_compute; reflexivity).
  split; [exact H|]. split; [reflexivity|].
  destruct (X7_credential_header_does_not_go_downstream
              (guard "k1" "X-Auth-Key" "" true) (arrive bearerRequest)
              ByBearer "Authorization" H eq_refl eq_refl)
    as (r' & Hserved & Habsent & _).
  exists r'. split; [exact Hserved|]. apply Habsent. vm_compute. discriminate.
Defined.

(** X8: the forwarding header is added, not set.  When the request comes in
    with values under the name of the forwarding header, and the matching
    method does not delete that header, those values stay in front of the
    matched key, and reading the header downstream gives the first value
    that the client sent, not the matched key. *)
Theorem X8_forwarding_header_is_appended (ka : KeyAuth) (w : World)
    (m : Method) (x : string) (l : list string) :
  firstMatch ka (req w) = Some m ->
  internalForwardHeaderName ka <> "" ->
  Header (req w)
    !! NetHTTP.CanonicalMIMEHeaderKey (internalForwardHeaderName ka)
    = Some (x :: l) ->
  (forall name, removeHeadersOnSuccess ka = true ->
                credentialHeader ka m = Some name ->
                NetHTTP.CanonicalMIMEHeaderKey name <>
                NetHTTP.CanonicalMIMEHeaderKey (internalForwardHeaderName ka)) ->
  exists r',
    served (ServeHTTP ka w) = served w ++ [r'] /\
    Header r'
      !! NetHTTP.CanonicalMIMEHeaderKey (internalForwardHeaderName ka)
      = Some (x :: l ++ [extract ka m (req w)]) /\
    NetHTTP.Get (Header r') (internalForwardHeaderName ka) = x.
Proof.
  intros Hfirst Hname Hclient Hcred. rewrite ServeHTTP_served, Hfirst. eexists.
  split; [reflexivity|]. rewrite forwarded_Header. unfold forwardKey.
  apply eqb_nonEmpty in Hname. rewrite Hname.
  assert (Hsan : Header (sanitize ka m (req w))
                   !! NetHTTP.CanonicalMIMEHeaderKey (internalForwardHeaderName ka)
                 = Some (x :: l)).
  { rewrite sanitize_Header.
    destruct (credentialHeader ka m) as [name|] eqn:Ec; [|exact Hclient].
    destruct (removeHeadersOnSuccess ka) eqn:Er; [|exact Hclient].
    unfold NetHTTP.Del. rewrite lookup_delete_ne; [exact Hclient|].
    apply (Hcred name eq_refl eq_refl). }
  assert (Hadd : NetHTTP.Add (Header (sanitize ka m (req w)))
                   (internalForwardHeaderName ka) (extract ka m (req w))
                   !! NetHTTP.CanonicalMIMEHeaderKey (internalForwardHeaderName ka)
                 = Some (x :: l ++ [extract ka m (req w)])).
  { unfold NetHTTP.Add, NetHTTP.values. rewrite lookup_insert_eq, Hsan.
    reflexivity. }
  split; [exact Hadd|]. unfold NetHTTP.Get, NetHTTP.values. rewrite Hadd.
  reflexivity.
Qed.

Lemma X8_forwarding_header_is_appended_witness :
  firstMatch (guard "k1" "X-Auth-Key" "" true) (req (arrive spoofRequest))
    = Some ByBearer /\
  exists r',
    served (ServeHTTP (guard "k1" "X-Auth-Key" "" true) (arrive spoofRequest))
      = [r'] /\
    Header r' !! "X-Auth-Key" = Some ["admin"; "k1"] /\
    NetHTTP.Get (Header r') "X-Auth-Key" = "admin".
Proof.
  assert (H : firstMatch (guard "k1" "X-Auth-Key" "" true)
                (req (arrive spoofRequest)) = Some ByBearer)
    by (vm_compute; reflexivity).
  split; [exact H|].
  destruct (X8_forwarding_header_is_appended
              (guard "k1" "X-Auth-Key" "" true) (arrive spoofRequest)
              ByBearer "admin" [] H)
    as (r' & Hserved & Hvalues & Hget).
  - discriminate.
  - vm_compute. reflexivity.
  - intros name _ [= <-]. vm_compute. discriminate.
  - exists r'. split; [exact Hserved|]. split; [exact Hvalues | exact Hget].
Defined.

(** X9: the request target is recomputed on a match and only then.  A
    request that goes downstream has the [RequestURI] of its URL; a request
    that is refused keeps the [RequestURI] and the headers it came with,
    also when [internalErrorRoute] replaces its path and query string. *)
Theorem X9_request_target_follows_the_url_on_match_only (ka : KeyAuth)
    (w : World) :
  (forall m, firstMatch ka (req w) = Some m ->
     exists r',
       served (ServeHTTP ka w) = served w ++ [r'] /\
       RequestURI r' = NetURL.RequestURI (URL r')) /\
  (firstMatch ka (req w) = None ->
   RequestURI (req (ServeHTTP ka w)) = RequestURI (req w) /\
   Header (req (ServeHTTP ka w)) = Header (req w)).
Proof.
  split.
  - intros m Hfirst. rewrite ServeHTTP_served, Hfirst. eexists.
    split; [reflexivity | apply forwarded_RequestURI].
  - intros Hnone. rewrite ServeHTTP_dispatch, Hnone.
    destruct (nonEmpty (internalErrorRoute ka)); [split; reflexivity|].
    cbn. destruct (writeError (rw w)); split; reflexivity.
Qed.



(** ** Construction *)

(** X11: the configuration of [CreateConfig] is refused by [New] as it is,
    for its want of keys; given any key it is accepted, and the handler has
    the four methods enabled, reads [X-API-KEY], [Authorization] and
    [token], removes the credential on success, and has no forwarding
    header and no error route. *)
Theorem X11_default_configuration_needs_keys (nxt : Handler) (name : string)
    (ks : list string) :
  snd (New nxt CreateConfig name) = inr "must specify at least one valid key" /\
  (ks <> [] ->
   exists ka,
     snd (New nxt (withKeys ks CreateConfig) name) = inl ka /\
     keys ka = ks /\ (forall m, enabled ka m = true) /\
     authenticationHeaderName ka = "X-API-KEY" /\
     bearerHeaderName ka = "Authorization" /\
     queryParamName ka = "token" /\
     removeHeadersOnSuccess ka = true /\
     removeQueryParamsOnSuccess ka = true /\
     internalForwardHeaderName ka = "" /\
     internalErrorRoute ka = "").
Proof.
  split; [reflexivity|]. intros Hks. unfold New.
  destruct ks as [|k ks]; [now elim Hks|]. cbn. eexists.
  split; [reflexivity|]. cbn. split; [reflexivity|].
  split; [intros []; reflexivity|]. repeat split.
Qed.

(** X12: [New] looks at the number of keys, not at the keys.  A
    configuration whose keys are all the empty string passes construction,
    and the handler it gives refuses every request. *)
Theorem X12_empty_keys_pass_construction (nxt : Handler) (config : Config)
    (name : string) :
  Keys config <> [] ->
  (forall a, In a (Keys config) -> a = "") ->
  AuthenticationHeader config = true \/ BearerHeader config = true \/
  QueryParam config = true \/ PathSegment config = true ->
  exists ka,
    snd (New nxt config name) = inl ka /\
    forall w, firstMatch ka (req w) = None /\
              served (ServeHTTP ka w) = served w.
Proof.
  intros Hks Hempty Htoggle. unfold New.
  destruct (Keys config) as [|k ks] eqn:Ek; [now elim Hks|].
  cbn [length Nat.eqb].
  assert (Hany : negb (AuthenticationHeader config) && negb (BearerHeader config)
                 && negb (QueryParam config) && negb (PathSegment config) = false).
  { destruct Htoggle as [-> | [-> | [-> | ->]]]; cbn;
      rewrite ?andb_false_r; reflexivity. }
  rewrite Hany. cbn [snd]. eexists. split; [reflexivity|].
  intros w.
  match goal with |- firstMatch ?ka _ = None /\ _ =>
    assert (Hnone : firstMatch ka (req w) = None)
  end.
  { apply no_entry_no_match. cbn [keys]. intros m a _ Hin _.
    apply Hempty. exact Hin. }
  split; [exact Hnone|]. rewrite ServeHTTP_served, Hnone. reflexivity.
Qed.

Lemma X12_empty_keys_pass_construction_witness :
  exists ka,
    snd (New passThrough (withKeys [""] CreateConfig) "auth") = inl ka /\
    served (ServeHTTP ka (arrive pathRequest)) = [].
Proof.
  destruct (X12_empty_keys_pass_construction
              passThrough (withKeys [""] CreateConfig) "auth")
    as (ka & Hnew & Hrefuse).
  - discriminate.
  - intros a [<-|[]]. reflexivity.
  - left. reflexivity.
  - exists ka. split; [exact Hnew|]. apply (Hrefuse (arrive pathRequest)).
Defined.

(** ** Query strings: encoding and parsing again *)

Section QueryFacts.

Lemma allBytes_append p (s t : string) :
  allBytes p (s +:+ t) = allBytes p s && allBytes p t.
Proof.
  unfold allBytes. induction s as [|c s IH]; [reflexivity|].
  rewrite append_cons. cbn [list_ascii_of_string forallb]. rewrite IH.
  apply andb_assoc.
Qed.

Lemma escape_cons c s mode :
  NetURL.escape (String c s) mode =
    NetURL.escape (String c "") mode +:+ NetURL.escape s mode.
Proof.
  cbn [NetURL.escape]. destruct (NetURL.shouldEscape c mode); [|reflexivity].
  destruct mode, (Ascii.eqb c " "); reflexivity.
Qed.

Lemma QueryEscape_byte_plain c :
  allBytes plain (NetURL.QueryEscape (String c "")) = true.
Proof. destruct c as [[] [] [] [] [] [] [] []]; vm_compute; reflexivity. Qed.

Lemma QueryEscape_plain s : allBytes plain (NetURL.QueryEscape s) = true.
Proof.
  unfold NetURL.QueryEscape. induction s as [|c s IH]; [reflexivity|].
  rewrite escape_cons, allBytes_append, IH, andb_true_r.
  apply QueryEscape_byte_plain.
Qed.

Lemma QueryUnescape_byte c t :
  NetURL.QueryUnescape (NetURL.QueryEscape (String c "") +:+ t) =
    String c <$> NetURL.QueryUnescape t.
Proof. destruct c as [[] [] [] [] [] [] [] []]; reflexivity. Qed.

(** Unescaping undoes escaping. *)
Lemma QueryUnescape_QueryEscape s :
  NetURL.QueryUnescape (NetURL.QueryEscape s) = Some s.
Proof.
  unfold NetURL.QueryEscape. induction s as [|c s IH]; [reflexivity|].
  rewrite escape_cons.
  change (NetURL.escape (String c "") NetURL.encodeQueryComponent)
    with (NetURL.QueryEscape (String c "")).
  rewrite QueryUnescape_byte, IH. reflexivity.
Qed.


Lemma split_no_sep sep s :
  allBytes (fun c => negb (Ascii.eqb c sep)) s = true ->
  NetURL.split sep s = [s].
Proof.
  unfold allBytes. induction s as [|c s IH]; [reflexivity|].
  cbn [list_ascii_of_string forallb NetURL.split]. intros H.
  apply andb_true_iff in H as [Hc Hs]. apply negb_true_iff in Hc.
  rewrite Hc, (IH Hs). reflexivity.
Qed.

Lemma split_append_sep sep s t :
  allBytes (fun c => negb (Ascii.eqb c sep)) s = true ->
  NetURL.split sep (s +:+ String sep t) = s :: NetURL.split sep t.
Proof.
  unfold allBytes. induction s as [|c s IH].
  - intros _. change ("" +:+ String sep t) with (String sep t).
    cbn [NetURL.split]. rewrite Ascii.eqb_refl. reflexivity.
  - rewrite append_cons. cbn [list_ascii_of_string forallb NetURL.split].
    intros H. apply andb_true_iff in H as [Hc Hs]. apply negb_true_iff in Hc.
    rewrite Hc, (IH Hs). reflexivity.
Qed.

(** A plain byte is none of the three separators. *)
Lemma plain_excludes sep s :
  In sep ["&"; "="; ";"]%char ->
  allBytes plain s = true ->
  allBytes (fun c => negb (Ascii.eqb c sep)) s = true.
Proof.
  intros Hsep. unfold allBytes. induction s as [|c s IH]; [reflexivity|].
  cbn [list_ascii_of_string forallb]. intros H.
  apply andb_true_iff in H as [Hc Hs]. rewrite (IH Hs), andb_true_r.
  unfold plain, NetHTTP.byte_in in Hc. cbn in Hc.
  destruct Hsep as [<-|[<-|[<-|[]]]];
    destruct (Ascii.eqb c "&"), (Ascii.eqb c "="), (Ascii.eqb c ";");
    try discriminate Hc; reflexivity.
Qed.

Lemma plain_no_amp s :
  allBytes plain s = true ->
  allBytes (fun c => negb (Ascii.eqb c "&")) s = true.
Proof. apply plain_excludes. left. reflexivity. Qed.

(** Splitting at [&] undoes joining with [&], for pieces without [&]. *)
Lemma split_join l :
  l <> [] ->
  Forall (fun s => allBytes (fun c => negb (Ascii.eqb c "&")) s = true) l ->
  NetURL.split "&" (NetURL.join "&" l) = l.
Proof.
  induction l as [|x l IH]; [congruence|]. intros _ Hall.
  apply Forall_cons_1 in Hall as [Hx Hl]. destruct l as [|y l].
  - cbn [NetURL.join]. apply split_no_sep. exact Hx.
  - change (NetURL.join "&" (x :: y :: l))
      with (x +:+ String "&" (NetURL.join "&" (y :: l))).
    rewrite split_append_sep by exact Hx. rewrite IH; [reflexivity | discriminate | exact Hl].
Qed.

Lemma Contains_byte sep s :
  allBytes (fun c => negb (Ascii.eqb c sep)) s = true ->
  GoStrings.Contains s (String sep "") = false.
Proof.
  unfold allBytes. induction s as [|c s IH]; [reflexivity|].
  cbn [list_ascii_of_string forallb GoStrings.Contains GoStrings.HasPrefix].
  intros H. apply andb_true_iff in H as [Hc Hs]. rewrite (IH Hs).
  apply negb_true_iff in Hc. rewrite Hc. reflexivity.
Qed.

Lemma Cut_append_sep s t :
  allBytes plain s = true ->
  NetURL.Cut (s +:+ String "=" t) "=" = (s, t).
Proof.
  unfold allBytes. induction s as [|c s IH].
  - intros _. reflexivity.
  - rewrite append_cons. cbn [list_ascii_of_string forallb NetURL.Cut].
    intros H. apply andb_true_iff in H as [Hc Hs]. rewrite (IH Hs).
    unfold plain, NetHTTP.byte_in in Hc. cbn in Hc.
    destruct (Ascii.eqb c "&"), (Ascii.eqb c "=");
      try discriminate Hc; reflexivity.
Qed.

Lemma setting_plain_amp k x :
  allBytes (fun c => negb (Ascii.eqb c "&")) (setting k x) = true.
Proof.
  unfold setting. rewrite !allBytes_append.
  rewrite (plain_no_amp _ (QueryEscape_plain k)).
  rewrite (plain_no_amp _ (QueryEscape_plain x)). reflexivity.
Qed.

(** Parsing one encoded setting adds its value to the values of its name. *)
Lemma parsePair_setting (m : NetURL.Values) k x :
  NetURL.parsePair m (setting k x) = <[k := NetHTTP.values m k ++ [x]]> m.
Proof.
  unfold NetURL.parsePair.
  assert (Hsemi : GoStrings.Contains (setting k x) ";" = false).
  { apply Contains_byte. unfold setting. rewrite !allBytes_append.
    rewrite (plain_excludes ";" (NetURL.QueryEscape k))
      by (auto using QueryEscape_plain; cbn; tauto).
    rewrite (plain_excludes ";" (NetURL.QueryEscape x))
      by (auto using QueryEscape_plain; cbn; tauto).
    reflexivity. }
  rewrite Hsemi.
  assert (Hne : String.eqb (setting k x) "" = false).
  { unfold setting. destruct (NetURL.QueryEscape k); reflexivity. }
  rewrite Hne. unfold setting.
  change ("=" +:+ NetURL.QueryEscape x) with (String "=" (NetURL.QueryEscape x)).
  rewrite (Cut_append_sep _ _ (QueryEscape_plain k)).
  rewrite !QueryUnescape_QueryEscape. reflexivity.
Qed.

Lemma fold_settings_of_key (acc : NetURL.Values) k xs :
  fold_left NetURL.parsePair (map (setting k) xs) acc =
    match xs with
    | [] => acc
    | _ :: _ => <[k := NetHTTP.values acc k ++ xs]> acc
    end.
Proof.
  revert acc. induction xs as [|x xs IH]; intros acc; [reflexivity|].
  cbn [map fold_left]. rewrite parsePair_setting, IH.
  destruct xs as [|y xs]; [reflexivity|].
  unfold NetHTTP.values at 1. rewrite lookup_insert_eq.
  cbn [default from_option id].
  rewrite insert_insert_eq, <- app_assoc. reflexivity.
Qed.

(** Parsing the settings of distinct names one name after the other. *)
Lemma fold_settings (m : NetURL.Values) ks :
  NoDup ks ->
  forall (acc : NetURL.Values),
    (forall k, k ∈ ks -> acc !! k = None) ->
    forall j,
      fold_left NetURL.parsePair
        (flat_map (fun k => map (setting k) (NetHTTP.values m k)) ks) acc !! j =
      if decide (j ∈ ks) then
        match NetHTTP.values m j with
        | [] => None
        | x :: l => Some (x :: l)
        end
      else acc !! j.
Proof.
  induction 1 as [|k ks Hk Hnodup IH]; intros acc Hacc j.
  - destruct (decide (j ∈ [])) as [Hin|_]; [|reflexivity].
    apply elem_of_nil in Hin. destruct Hin.
  - cbn [flat_map]. rewrite fold_left_app, fold_settings_of_key.
    assert (Hk0 : acc !! k = None) by (apply Hacc; left).
    assert (Hv0 : NetHTTP.values acc k = [])
      by (unfold NetHTTP.values; rewrite Hk0; reflexivity).
    rewrite Hv0. cbn [app].
    rewrite IH.
    + destruct (decide (j ∈ ks)) as [Hj|Hj].
      * destruct (decide (j ∈ k :: ks)) as [_|Hno]; [reflexivity|].
        elim Hno. right. exact Hj.
      * destruct (decide (j = k)) as [->|Hne].
        -- destruct (decide (k ∈ k :: ks)) as [_|Hno]; [|elim Hno; left].
           destruct (NetHTTP.values m k); [exact Hk0 | apply lookup_insert_eq].
        -- destruct (decide (j ∈ k :: ks)) as [Hin|_].
           ++ apply elem_of_cons in Hin as [?|?]; contradiction.
           ++ destruct (NetHTTP.values m k); [reflexivity|].
              apply lookup_insert_ne. congruence.
    + intros k' Hk'.
      assert (Hne : k <> k') by (intros ->; contradiction).
      destruct (NetHTTP.values m k).
      * apply Hacc. right. exact Hk'.
      * rewrite lookup_insert_ne by exact Hne. apply Hacc. right. exact Hk'.
Qed.

Lemma sorted_keys (m : NetURL.Values) :
  NoDup (merge_sort String.le (map fst (map_to_list m))) /\
  forall j, j ∈ merge_sort String.le (map fst (map_to_list m)) <->
            is_Some (m !! j).
Proof.
  change (map fst (map_to_list m)) with ((map_to_list m).*1).
  split.
  - rewrite merge_sort_Permutation. apply NoDup_fst_map_to_list.
  - intros j. rewrite merge_sort_Permutation, list_elem_of_fmap. split.
    + intros ([j' x] & -> & Hin). apply elem_of_map_to_list in Hin.
      exists x. exact Hin.
    + intros [x Hx]. exists (j, x). split; [reflexivity|].
      apply elem_of_map_to_list. exact Hx.
Qed.

(** Parsing undoes encoding, for parameters that all have a value. *)
Lemma ParseQuery_Encode (m : NetURL.Values) :
  noEmptyValues m -> NetURL.ParseQuery (NetURL.Encode m) = m.
Proof.
  intros Hm. unfold NetURL.ParseQuery, NetURL.Encode. cbv zeta.
  change (fun k : string =>
            map (fun x : string =>
                   NetURL.QueryEscape k +:+ "=" +:+ NetURL.QueryEscape x)
              (NetHTTP.values m k))
    with (fun k => map (setting k) (NetHTTP.values m k)).
  destruct (sorted_keys m) as [Hnodup Hkeys].
  set (ks := merge_sort String.le (map fst (map_to_list m))) in *.
  set (S := flat_map (fun k => map (setting k) (NetHTTP.values m k)) ks).
  assert (Hsplit : fold_left NetURL.parsePair
                     (NetURL.split "&" (NetURL.join "&" S)) ∅ =
                   fold_left NetURL.parsePair S ∅).
  { destruct S as [|s0 S0] eqn:ES; [reflexivity|].
    rewrite split_join; [reflexivity | discriminate |].
    rewrite <- ES. apply Forall_forall. intros s Hs.
    apply list_elem_of_In, in_flat_map in Hs as (k & _ & Hs).
    apply in_map_iff in Hs as (x & <- & _). apply setting_plain_amp. }
  rewrite Hsplit. apply map_eq. intros j. subst S.
  rewrite (fold_settings m ks Hnodup ∅) by (intros; apply lookup_empty).
  destruct (decide (j ∈ ks)) as [Hj|Hj].
  - apply Hkeys in Hj as [l Hl]. unfold NetHTTP.values. rewrite Hl.
    cbn [default]. destruct l; [|reflexivity]. elim (Hm j Hl).
  - rewrite lookup_empty. destruct (m !! j) eqn:E; [|reflexivity].
    elim Hj. apply Hkeys. eauto.
Qed.

(** [ParseQuery] gives no name without a value. *)
Lemma ParseQuery_noEmptyValues q : noEmptyValues (NetURL.ParseQuery q).
Proof.
  unfold NetURL.ParseQuery.
  assert (H : forall l (acc : NetURL.Values),
             noEmptyValues acc ->
             noEmptyValues (fold_left NetURL.parsePair l acc)).
  { induction l as [|s l IH]; intros acc Hacc; [exact Hacc|].
    cbn [fold_left]. apply IH. unfold NetURL.parsePair.
    destruct (GoStrings.Contains s ";"); [exact Hacc|].
    destruct (String.eqb s ""); [exact Hacc|].
    destruct (NetURL.Cut s "=") as [key value].
    destruct (NetURL.QueryUnescape key) as [k|]; [|exact Hacc].
    destruct (NetURL.QueryUnescape value) as [v|]; [|exact Hacc].
    intros j. destruct (decide (k = j)) as [->|Hne].
    - rewrite lookup_insert_eq. intros [= E].
      destruct (NetHTTP.values acc j); discriminate E.
    - rewrite lookup_insert_ne by exact Hne. apply Hacc. }
  apply H. intros j. rewrite lookup_empty. discriminate.
Qed.

Lemma delete_noEmptyValues (m : NetURL.Values) k :
  noEmptyValues m -> noEmptyValues (delete k m).
Proof.
  intros Hm j. destruct (decide (k = j)) as [->|Hne].
  - rewrite lookup_delete_eq. discriminate.
  - rewrite lookup_delete_ne by exact Hne. apply Hm.
Qed.

End QueryFacts.

(** X13: after a match of the query-parameter method, the query string that
    goes downstream parses to the parameters that were kept: to the
    parameters of the request without the named one when
    [removeQueryParamsOnSuccess] is set, so that the key is gone from the
    query string and every other parameter is still there with its values,
    and to the parameters of the request as they were when it is not set.
    Encoding them again gives the same query string. *)
Theorem X13_forwarded_query_holds_the_kept_parameters (ka : KeyAuth)
    (w : World) :
  firstMatch ka (req w) = Some ByQuery ->
  exists r',
    served (ServeHTTP ka w) = served w ++ [r'] /\
    NetURL.Query (URL r') = keptQuery ka (req w) /\
    NetURL.Encode (NetURL.Query (URL r')) = NetURL.RawQuery (URL r') /\
    (removeQueryParamsOnSuccess ka = true ->
     NetURL.ValuesGet (NetURL.Query (URL r')) (queryParamName ka) = "" /\
     extract ka ByQuery r' = "" /\
     forall k, k <> queryParamName ka ->
               NetURL.Query (URL r') !! k = NetURL.Query (URL (req w)) !! k) /\
    (removeQueryParamsOnSuccess ka = false ->
     NetURL.Query (URL r') = NetURL.Query (URL (req w))).
Proof.
  intros Hfirst. rewrite ServeHTTP_served, Hfirst.
  set (r' := forwarded ka (sanitize ka ByQuery (req w))
               (extract ka ByQuery (req w))).
  exists r'. split; [reflexivity|].
  assert (Hkept : noEmptyValues (keptQuery ka (req w))).
  { unfold keptQuery, NetURL.ValuesDel, NetURL.Query.
    destruct (removeQueryParamsOnSuccess ka);
      [apply delete_noEmptyValues|]; apply ParseQuery_noEmptyValues. }
  assert (Hraw : NetURL.RawQuery (URL r') = NetURL.Encode (keptQuery ka (req w)))
    by (unfold r'; rewrite forwarded_URL; reflexivity).
  assert (Hquery : NetURL.Query (URL r') = keptQuery ka (req w))
    by (unfold NetURL.Query; rewrite Hraw; apply ParseQuery_Encode, Hkept).
  clearbody r'.
  split; [exact Hquery|]. split; [rewrite Hquery, Hraw; reflexivity|]. split.
  - intros Hrem.
    assert (Hgone : NetURL.ValuesGet (keptQuery ka (req w)) (queryParamName ka)
                    = "").
    { unfold keptQuery, NetURL.ValuesGet, NetURL.ValuesDel, NetHTTP.values.
      rewrite Hrem, lookup_delete_eq. reflexivity. }
    split; [rewrite Hquery; exact Hgone|]. split.
    + cbn [extract]. rewrite Hquery, Hgone. apply contains_empty_candidate.
    + intros k Hk. rewrite Hquery. unfold keptQuery, NetURL.ValuesDel.
      rewrite Hrem. apply lookup_delete_ne. congruence.
  - intros Hkeep. rewrite Hquery. unfold keptQuery. rewrite Hkeep. reflexivity.
Qed.

Lemma X13_forwarded_query_holds_the_kept_parameters_witness :
  firstMatch (guard "k1" "" "" true) (req (arrive queryRequest)) = Some ByQuery /\
  exists r',
    served (ServeHTTP (guard "k1" "" "" true) (arrive queryRequest)) = [r'] /\
    NetURL.Query (URL r') = {[ "a" := ["1"]; "b" := ["2"] ]}.
Proof.
  assert (H : firstMatch (guard "k1" "" "" true) (req (arrive queryRequest))
              = Some ByQuery) by (vm_compute; reflexivity).
  split; [exact H|].
  destruct (X13_forwarded_query_holds_the_kept_parameters
              (guard "k1" "" "" true) (arrive queryRequest) H)
    as (r' & Hserved & Hquery & _).
  exists r'. split; [exact Hserved|]. rewrite Hquery. vm_compute. reflexivity.
Defined.

(** ** Header names *)

Section HeaderNameFacts.

Lemma canonicalCase_empty upper s :
  NetHTTP.canonicalCase upper s = "" -> s = "".
Proof. destruct s; [reflexivity | discriminate]. Qed.

Lemma CanonicalMIMEHeaderKey_empty s :
  NetHTTP.CanonicalMIMEHeaderKey s = "" <-> s = "".
Proof.
  split; [|intros ->; reflexivity]. unfold NetHTTP.CanonicalMIMEHeaderKey.
  destruct (forallb _ _); [apply canonicalCase_empty | auto].
Qed.

Lemma Get_canonical (h : NetHTTP.Header) n n' :
  NetHTTP.CanonicalMIMEHeaderKey n = NetHTTP.CanonicalMIMEHeaderKey n' ->
  NetHTTP.Get h n = NetHTTP.Get h n'.
Proof. intros E. unfold NetHTTP.Get. rewrite E. reflexivity. Qed.

Lemma Del_canonical (h : NetHTTP.Header) n n' :
  NetHTTP.CanonicalMIMEHeaderKey n = NetHTTP.CanonicalMIMEHeaderKey n' ->
  NetHTTP.Del h n = NetHTTP.Del h n'.
Proof. intros E. unfold NetHTTP.Del. rewrite E. reflexivity. Qed.

Lemma Add_canonical (h : NetHTTP.Header) n n' v :
  NetHTTP.CanonicalMIMEHeaderKey n = NetHTTP.CanonicalMIMEHeaderKey n' ->
  NetHTTP.Add h n v = NetHTTP.Add h n' v.
Proof. intros E. unfold NetHTTP.Add. rewrite E. reflexivity. Qed.

Lemma nonEmpty_canonical n n' :
  NetHTTP.CanonicalMIMEHeaderKey n = NetHTTP.CanonicalMIMEHeaderKey n' ->
  nonEmpty n = nonEmpty n'.
Proof.
  intros E. destruct (nonEmpty n') eqn:E'.
  - apply eqb_nonEmpty. intros ->. apply eqb_nonEmpty in E'. apply E'.
    apply CanonicalMIMEHeaderKey_empty. rewrite <- E. reflexivity.
  - apply nonEmpty_false in E'. subst n'. apply nonEmpty_false.
    apply CanonicalMIMEHeaderKey_empty. rewrite E. reflexivity.
Qed.

End HeaderNameFacts.

(** X14: the handler uses the three header names of its configuration
    through their canonical form only: two handlers that differ in the
    spelling of the names, with the same canonical forms, treat every
    request alike. *)
Theorem X14_header_names_count_up_to_canonical_form (ka : KeyAuth) (w : World)
    (keyName bearerName forwardName : string) :
  NetHTTP.CanonicalMIMEHeaderKey keyName =
    NetHTTP.CanonicalMIMEHeaderKey (authenticationHeaderName ka) ->
  NetHTTP.CanonicalMIMEHeaderKey bearerName =
    NetHTTP.CanonicalMIMEHeaderKey (bearerHeaderName ka) ->
  NetHTTP.CanonicalMIMEHeaderKey forwardName =
    NetHTTP.CanonicalMIMEHeaderKey (internalForwardHeaderName ka) ->
  ServeHTTP (withHeaderNames keyName bearerName forwardName ka) w =
    ServeHTTP ka w.
Proof.
  intros Hkey Hbearer Hforward.
  assert (Hok : forall w' key,
            ok (withHeaderNames keyName bearerName forwardName ka) w' key =
            ok ka w' key).
  { intros w' key. unfold ok, withHeaderNames.
    cbn [next internalForwardHeaderName].
    rewrite (nonEmpty_canonical _ _ Hforward).
    rewrite (Add_canonical _ _ _ _ Hforward). reflexivity. }
  unfold ServeHTTP. rewrite !Hok. unfold withHeaderNames.
  cbn [authenticationHeader authenticationHeaderName bearerHeader
       bearerHeaderName queryParam queryParamName pathSegment
       removeQueryParamsOnSuccess keys removeHeadersOnSuccess
       internalErrorRoute].
  rewrite !(Get_canonical _ _ _ Hkey), !(Del_canonical _ _ _ Hkey).
  rewrite !(Get_canonical _ _ _ Hbearer), !(Del_canonical _ _ _ Hbearer).
  reflexivity.
Qed.

Lemma X14_header_names_count_up_to_canonical_form_witness :
  ServeHTTP
    (withHeaderNames "x-api-key" "AUTHORIZATION" "x-auth-key"
       (guard "k1" "X-Auth-Key" "" true))
    (arrive bearerRequest) =
  ServeHTTP (guard "k1" "X-Auth-Key" "" true) (arrive bearerRequest).
Proof.
  apply (X14_header_names_count_up_to_canonical_form
           (guard "k1" "X-Auth-Key" "" true) (arrive bearerRequest)
           "x-api-key" "AUTHORIZATION" "x-auth-key");
    vm_compute; reflexivity.
Defined.

(** ** More on the pattern of [bearer] *)

Section TokenFacts.

Lemma takeWhile_until p s c t :
  allBytes p s = true -> p c = false ->
  takeWhile p (s +:+ String c t) = s /\
  dropWhile p (s +:+ String c t) = String c t.
Proof.
  unfold allBytes. intros Hs Hc. induction s as [|d s IH].
  - change ("" +:+ String c t) with (String c t).
    cbn [takeWhile dropWhile]. rewrite Hc. split; reflexivity.
  - cbn [list_ascii_of_string forallb] in Hs.
    apply andb_true_iff in Hs as [Hd Hs]. rewrite append_cons.
    cbn [takeWhile dropWhile]. rewrite Hd.
    destruct (IH Hs) as [-> ->]. split; reflexivity.
Qed.

Lemma bytes_append (s t : string) :
  list_ascii_of_string (s +:+ t) =
    list_ascii_of_string s ++ list_ascii_of_string t.
Proof.
  induction s as [|c s IH]; [reflexivity|].
  rewrite append_cons. cbn [list_ascii_of_string app]. rewrite IH. reflexivity.
Qed.

End TokenFacts.

(** X15: a dollar sign ends the token of the pattern.  A header value made
    of [Bearer], one whitespace byte, a token without dollar sign, a dollar
    sign and anything at all is compared by its token alone: what follows
    the dollar sign is ignored, and the value matches when the token is a
    valid key. *)
Theorem X15_bearer_token_ends_at_dollar (L : list string) (w : ascii)
    (t more : string) :
  Regexp.perl_space w = true ->
  allBytes notDollar t = true ->
  t <> "" ->
  bearer ("Bearer" +:+ String w (t +:+ String "$" more)) L
    = contains t L true /\
  (In t L -> bearer ("Bearer" +:+ String w (t +:+ String "$" more)) L = t).
Proof.
  intros Hw Hall Hne.
  assert (Htok : bearerToken ("Bearer" +:+ String w (t +:+ String "$" more))
                 = Some t).
  { unfold bearerToken.
    rewrite (FindStringSubmatch_here _ _ ["Bearer" +:+ String w t; t]);
      [reflexivity|].
    rewrite matchHere_bearer, CutPrefix_append, Hw.
    destruct (takeWhile_until notDollar t "$" more Hall eq_refl) as [-> ->].
    apply eqb_nonEmpty in Hne. rewrite Hne, consumed_append.
    change ("Bearer" +:+ String w (t +:+ String "$" more))
      with (("Bearer" +:+ String w t) +:+ String "$" more).
    rewrite consumed_append. reflexivity. }
  rewrite bearer_bearerToken, Htok. split; [reflexivity|].
  apply contains_exact_In.
Qed.

Lemma X15_bearer_token_ends_at_dollar_witness :
  bearer "Bearer k1$and more" ["k1"] = "k1".
Proof.
  apply (X15_bearer_token_ends_at_dollar ["k1"] " " "k1" "and more");
    [reflexivity | reflexivity | discriminate | left; reflexivity].
Defined.

(** X16: the scheme is matched with its capital letter.  A header value in
    which the byte [B] does not occur matches nothing, whatever the valid
    keys; [bearer k1] is such a value. *)
Theorem X16_bearer_scheme_is_case_sensitive (h : string) (L : list string) :
  ~ In "B"%char (list_ascii_of_string h) -> bearer h L = "".
Proof.
  intros Hno. destruct (String.eqb_spec (bearer h L) "") as [E|E]; [exact E|].
  elim Hno. rewrite bearer_bearerToken in E.
  destruct (bearerToken h) as [tok|] eqn:Et; [|congruence].
  apply bearerToken_Some in Et as (pre & w & post & -> & _).
  rewrite bytes_append. apply in_or_app. right. left. reflexivity.
Qed.

Lemma X16_bearer_scheme_is_case_sensitive_witness :
  bearer "bearer k1" ["k1"] = "".
Proof.
  apply (X16_bearer_scheme_is_case_sensitive "bearer k1" ["k1"]).
  cbn. intros H. repeat destruct H as [H|H]; try discriminate H. exact H.
Defined.

(** ** Repeated query parameters *)

Section RepeatedParameterFacts.




End RepeatedParameterFacts.


